(** * Hybrid model router: a shallow embedding of
      [openclaw-local/dist/agents/hybrid-router.js]

    The development follows the layout of the JavaScript module:
    message helpers, complexity classification, credential detection,
    the routing decision, tool simplification, the identity preamble,
    configuration resolution and the stream-function wrapper.

    Conventions.
    - A JavaScript number is an IEEE-754 binary64 value: Rocq's primitive
      [float], with [+], [-], [<?] and [<=?] the binary64 operations.
    - A JavaScript string that the code scans (with a regular expression,
      [split] or [trim]) is a [text]: the list of its UTF-16 code units.
      A string that is only compared with [===] or copied (roles, tags,
      reasons, targets, provider names, pattern sources) is a [string].
    - [null]/[undefined] is [None]. *)

From Stdlib Require Import ZArith NArith List String Ascii Bool Lia.
From Stdlib Require Import Floats.
From stdpp Require Import gmap strings list.

Set Warnings "-inexact-float".
Set Default Proof Using "Type".

Open Scope string_scope.
Open Scope list_scope.

(* ====================================================================== *)
(** * JavaScript strings as UTF-16 code units *)
(* ====================================================================== *)

Definition text := list N.

(** An ASCII literal of the source as a [text]. *)
Definition str (s : string) : text :=
  List.map N_of_ascii (list_ascii_of_string s).

(** [Array.prototype.join(sep)] on strings. *)
Fixpoint join (sep : text) (l : list text) : text :=
  match l with
  | [] => []
  | [x] => x
  | x :: rest => x ++ sep ++ join sep rest
  end.

Module CodeUnit.

Definition in_range (lo hi c : N) : bool := (N.leb lo c && N.leb c hi)%bool.

Definition is_upper (c : N) : bool := in_range 65 90 c.
Definition is_lower (c : N) : bool := in_range 97 122 c.
Definition is_letter (c : N) : bool := (is_upper c || is_lower c)%bool.
Definition is_digit (c : N) : bool := in_range 48 57 c.

(** [\w] is [A-Za-z0-9_], also under the [i] flag without [u]. *)
Definition is_word (c : N) : bool :=
  (is_letter c || is_digit c || N.eqb c 95)%bool.

(** LineTerminator: LF, CR, LS, PS.  [.] matches everything else. *)
Definition is_line_terminator (c : N) : bool :=
  (N.eqb c 10 || N.eqb c 13 || N.eqb c 8232 || N.eqb c 8233)%bool.

(** [\s] (and what [trim] strips): WhiteSpace and LineTerminator. *)
Definition is_space (c : N) : bool :=
  (in_range 9 13 c || N.eqb c 32 || N.eqb c 160 || N.eqb c 5760
   || in_range 8192 8202 c || N.eqb c 8232 || N.eqb c 8233
   || N.eqb c 8239 || N.eqb c 8287 || N.eqb c 12288 || N.eqb c 65279)%bool.

(** Canonicalize of a code unit below 128 under [/i] (no [u] flag):
    its upper-case form.  A code unit from 128 on never canonicalizes
    to one below 128, so it is left alone here; the tables of this
    module hold ASCII literals only. *)
Definition upper (c : N) : N := if is_lower c then (c - 32)%N else c.

End CodeUnit.

(** [String.prototype.trim]. *)
Fixpoint trim_start (s : text) : text :=
  match s with
  | c :: s' => if CodeUnit.is_space c then trim_start s' else s
  | [] => []
  end.

Definition trim (s : text) : text :=
  rev (trim_start (rev (trim_start s))).

(** [text.split(/\s+/)]: the pieces between the maximal runs of white
    space; the empty string gives one empty piece.  [in_run] says that the
    previous code unit was white space, [cur] is the current piece,
    reversed. *)
Fixpoint split_ws_from (in_run : bool) (cur : text) (s : text) : list text :=
  match s with
  | [] => [rev cur]
  | c :: s' =>
      if CodeUnit.is_space c
      then (if in_run then split_ws_from true cur s'
            else rev cur :: split_ws_from true [] s')
      else split_ws_from false (c :: cur) s'
  end.

Definition split_ws (s : text) : list text := split_ws_from false [] s.

(* ====================================================================== *)
(** * Regular expressions *)
(* ====================================================================== *)

(** The fragment of ECMAScript regular expressions that the module's
    literals use, with or without the [i] flag and without [m], [s], [u]
    or [y]. *)
Module JsRegex.

Inductive regex : Type :=
| Eps                         (* (?:) *)
| Lit (c : N)                 (* a literal code unit *)
| AnyChar                     (* .  *)
| Space                       (* \s *)
| WordChar                    (* \w *)
| OneOf (cs : list N)         (* [...] *)
| NoneOf (cs : list N)        (* [^...] *)
| Cat (r1 r2 : regex)
| Alt (r1 r2 : regex)         (* r1|r2 *)
| Star (r : regex)            (* r* *)
| Bol                         (* ^ *)
| Eol                         (* $ *)
| WordB.                      (* \b *)

Definition Plus (r : regex) : regex := Cat r (Star r).
Definition Opt (r : regex) : regex := Alt r Eps.

(** The literal word [s]. *)
Definition lit (s : string) : regex :=
  fold_right (fun c r => Cat (Lit c) r) Eps (str s).

(** [(a|b|...)]. *)
Fixpoint alts (l : list regex) : regex :=
  match l with
  | [] => NoneOf []  (* never used on an empty list *)
  | [r] => r
  | r :: rest => Alt r (alts rest)
  end.

Fixpoint seq (l : list regex) : regex :=
  match l with
  | [] => Eps
  | [r] => r
  | r :: rest => Cat r (seq rest)
  end.

Definition words (l : list string) : regex := alts (List.map lit l).

Definition is_word_opt (o : option N) : bool :=
  match o with Some c => CodeUnit.is_word c | None => false end.

(** Canonicalize: the upper-case form under the [i] flag. *)
Definition canon (ignoreCase : bool) (c : N) : N :=
  if ignoreCase then CodeUnit.upper c else c.

Definition mem (ignoreCase : bool) (c : N) (cs : list N) : bool :=
  existsb (fun d => N.eqb (canon ignoreCase c) (canon ignoreCase d)) cs.

(** One code unit against a one-unit pattern. *)
Definition step_ok (ignoreCase : bool) (r : regex) (c : N) : bool :=
  match r with
  | Lit d => N.eqb (canon ignoreCase c) (canon ignoreCase d)
  | AnyChar => negb (CodeUnit.is_line_terminator c)
  | Space => CodeUnit.is_space c
  | WordChar => CodeUnit.is_word c
  | OneOf cs => mem ignoreCase c cs
  | NoneOf cs => negb (mem ignoreCase c cs)
  | _ => false
  end.

(** The backtracking matcher, in continuation-passing style.
    [rmatch r prev s k] matches [r] at the front of [s], where [prev] is
    the code unit before [s] in the input ([None] at its start), and
    hands the rest to [k]; alternatives are tried in the order of the
    ECMAScript semantics (left before right, one more iteration before
    none), and an iteration of a star that consumes nothing is refused. *)
Fixpoint rmatch {A : Type} (ignoreCase : bool) (r : regex) (prev : option N)
    (s : text) (k : option N -> text -> option A) : option A :=
  match r with
  | Eps => k prev s
  | Lit _ | AnyChar | Space | WordChar | OneOf _ | NoneOf _ =>
      match s with
      | c :: s' => if step_ok ignoreCase r c then k (Some c) s' else None
      | [] => None
      end
  | Cat r1 r2 =>
      rmatch ignoreCase r1 prev s (fun p s' => rmatch ignoreCase r2 p s' k)
  | Alt r1 r2 =>
      match rmatch ignoreCase r1 prev s k with
      | Some a => Some a
      | None => rmatch ignoreCase r2 prev s k
      end
  | Star r1 =>
      (fix loop (n : nat) (p : option N) (t : text) : option A :=
         match n with
         | O => k p t
         | S n' =>
             match rmatch ignoreCase r1 p t
                     (fun p' t' =>
                        if Nat.ltb (List.length t') (List.length t)
                        then loop n' p' t' else None) with
             | Some a => Some a
             | None => k p t
             end
         end) (List.length s) prev s
  | Bol => match prev with None => k prev s | Some _ => None end
  | Eol => match s with [] => k prev s | _ :: _ => None end
  | WordB =>
      if xorb (is_word_opt prev) (is_word_opt (head s))
      then k prev s else None
  end.

(** The leftmost match: every start position in turn. *)
Fixpoint search {A : Type} (ignoreCase : bool) (r : regex) (prev : option N)
    (s : text) (k : option N -> text -> option A) : option A :=
  match rmatch ignoreCase r prev s k with
  | Some a => Some a
  | None =>
      match s with
      | [] => None
      | c :: s' => search ignoreCase r (Some c) s' k
      end
  end.

(** [re.test(text)] for a pattern [/re/] or [/re/i]. *)
Definition test (ignoreCase : bool) (r : regex) (t : text) : bool :=
  match search ignoreCase r None t (fun _ _ => Some tt) with
  | Some _ => true
  | None => false
  end.

(** The leftmost match as a pair: the input from the start of the match
    on, and the input after the match. *)
Fixpoint find (ignoreCase : bool) (r : regex) (prev : option N) (s : text)
    : option (text * text) :=
  match rmatch ignoreCase r prev s (fun _ s' => Some s') with
  | Some s' => Some (s, s')
  | None =>
      match s with
      | [] => None
      | c :: s0 => find ignoreCase r (Some c) s0
      end
  end.

(** [text.match(/re/g)] for a pattern that matches no empty string: the
    matched substrings, each search starting where the last match ended. *)
Fixpoint match_all (fuel : nat) (ignoreCase : bool) (r : regex)
    (prev : option N) (s : text) : list text :=
  match fuel with
  | O => []
  | S fuel' =>
      match find ignoreCase r prev s with
      | None => []
      | Some (from, rest) =>
          let matched := firstn (List.length from - List.length rest) from in
          matched :: match_all fuel' ignoreCase r
                       (match last matched with Some c => Some c | None => prev end)
                       rest
      end
  end.

End JsRegex.

Import JsRegex.


(* ====================================================================== *)
(** * Messages and contexts *)
(* ====================================================================== *)

(** A content part: [c.type] and [c.text] ([None] when the part has no
    text, as a tool call). *)
Record ContentPart : Type := mkPart {
  part_type : string;
  part_text : option text;
}.

(** [m.content]: a string, an array of parts, or anything else. *)
Inductive Content : Type :=
| CString (t : text)
| CArray (parts : list ContentPart)
| COther.

Record Message : Type := mkMessage {
  role : string;
  content : Content;
  provider : option string;   (* who produced an assistant message *)
  model_name : option string;
}.

Definition user_msg (t : string) : Message :=
  mkMessage "user" (CString (str t)) None None.

Definition tool_result_msg (t : string) : Message :=
  mkMessage "toolResult" (CString (str t)) None None.

Definition tool_call_part : ContentPart := mkPart "toolCall" None.

(** An assistant message that calls one tool, produced by [p]. *)
Definition assistant_tool_call (p : string) : Message :=
  mkMessage "assistant" (CArray [tool_call_part]) (Some p) None.

(** The values found in a tool description or an options bag. *)
Inductive JsValue : Type :=
| JUndefined
| JString (s : string)
| JSchema (properties : list (string * string * string)) (required : list string)
| JHost (id : nat).   (* any other value of the host, such as [execute] *)

(** A tool description, a plain object whose properties are its own: the
    part that the router reads or replaces.  [None] is an absent property;
    [tool_rest] stands for every other property, [execute] among them. *)
Record Tool : Type := mkTool {
  tool_name : option string;           (* tool.name *)
  tool_function_name : option string;  (* tool.function?.name *)
  tool_description : option JsValue;
  tool_parameters : option JsValue;
  tool_inputSchema : option JsValue;
  tool_rest : list (string * JsValue);
}.

(** The LLM context [{ systemPrompt, messages, tools }]; a null entry of
    [tools] is [None]. *)
Record Context : Type := mkContext {
  systemPrompt : option text;
  messages : option (list Message);
  tools : option (list (option Tool));
}.

(* ====================================================================== *)
(** * Message helpers *)
(* ====================================================================== *)

Definition part_text_or_empty (c : ContentPart) : text :=
  match part_text c with Some t => t | None => [] end.

(** The loop of [lastUserText], from the last message down. *)
Fixpoint lastUserText_down (rev_messages : list Message) : text :=
  match rev_messages with
  | [] => []
  | m :: rest =>
      if String.eqb (role m) "user" then
        match content m with
        | CString t => t
        | CArray parts =>
            join (str " ")
              (List.map part_text_or_empty
                 (List.filter (fun c => String.eqb (part_type c) "text") parts))
        | COther => lastUserText_down rest
        end
      else lastUserText_down rest
  end.

(** Extract the text of the last user message. *)
Definition lastUserText (msgs : list Message) : text :=
  lastUserText_down (rev msgs).

(** Whether the last message is a [toolResult]. *)
Definition isPostToolTurn (msgs : list Message) : bool :=
  match last msgs with
  | Some m => String.eqb (role m) "toolResult"
  | None => false
  end.

(** [messages.slice(-n)]. *)
Definition slice_last {A : Type} (n : nat) (l : list A) : list A :=
  skipn (List.length l - n) l.

(** Count the tool calls of the assistant in the last [lookback] messages. *)
Definition recentToolCallCount_in (msgs : list Message) (lookback : nat) : nat :=
  fold_left
    (fun count m =>
       match content m with
       | CArray parts =>
           if String.eqb (role m) "assistant"
           then count + List.length
                  (List.filter (fun c => String.eqb (part_type c) "toolCall") parts)
           else count
       | _ => count
       end)
    (slice_last lookback msgs) 0.

Definition recentToolCallCount (msgs : list Message) : nat :=
  recentToolCallCount_in msgs 10.

(* ====================================================================== *)
(** * Numbers *)
(* ====================================================================== *)

Module JsMath.

Definition is_pos_zero (x : float) : bool :=
  (PrimFloat.is_zero x && negb (PrimFloat.get_sign x))%bool.
Definition is_neg_zero (x : float) : bool :=
  (PrimFloat.is_zero x && PrimFloat.get_sign x)%bool.

(** [Math.max(...args)] as ECMAScript specifies it. *)
Definition max_step (highest number : float) : float :=
  let highest :=
    if (is_pos_zero number && is_neg_zero highest)%bool
    then number else highest in
  if (highest <? number)%float then number else highest.

Definition max (args : list float) : float :=
  if existsb PrimFloat.is_nan args then PrimFloat.nan
  else fold_left max_step args PrimFloat.neg_infinity.

(** [Math.min(...args)]. *)
Definition min_step (lowest number : float) : float :=
  let lowest :=
    if (is_neg_zero number && is_pos_zero lowest)%bool
    then number else lowest in
  if (number <? lowest)%float then number else lowest.

Definition min (args : list float) : float :=
  if existsb PrimFloat.is_nan args then PrimFloat.nan
  else fold_left min_step args PrimFloat.infinity.

End JsMath.

(** [Math.max(0, Math.min(1, score))]. *)
Definition clamp01 (score : float) : float :=
  JsMath.max [0%float; JsMath.min [1%float; score]].

(* ====================================================================== *)
(** * Complexity classification *)
(* ====================================================================== *)

Record Keyword : Type := mkKeyword {
  re : regex;
  w : float;
  tag : string;
}.

(** [/\b(a|b|...)\b/i]. *)
Definition bounded (l : list regex) : regex := seq [WordB; alts l; WordB].

Definition COMPLEX_KEYWORDS : list Keyword := [
  mkKeyword (bounded [lit "explain"; lit "describe"; lit "elaborate"])
    0.15 "explanation";
  mkKeyword (bounded [lit "implement"; lit "create"; lit "build"; lit "develop"])
    0.20 "implementation";
  mkKeyword (bounded [lit "refactor"; lit "optimize"; lit "improve"; lit "restructure"])
    0.20 "refactoring";
  mkKeyword (bounded [lit "debug"; lit "fix"; lit "solve"; lit "troubleshoot"])
    0.15 "debugging";
  mkKeyword (bounded [lit "analyze"; lit "compare"; lit "evaluate"; lit "review"])
    0.15 "analysis";
  mkKeyword (bounded [lit "why"; lit "how does"; lit "what causes"])
    0.10 "reasoning";
  mkKeyword (bounded [lit "step by step"; lit "in detail"; lit "thoroughly"])
    0.15 "detail-request";
  (* /\b(write|generate|compose)\s+\w+/i *)
  mkKeyword (seq [WordB; words ["write"; "generate"; "compose"];
                  Plus Space; Plus WordChar])
    0.15 "generation";
  (* /\b(find|search|look\s*up|google|browse)\b/i *)
  mkKeyword (bounded [lit "find"; lit "search";
                      seq [lit "look"; Star Space; lit "up"];
                      lit "google"; lit "browse"])
    0.35 "search";
  (* /\b(recommend|suggest|best|top|highest.rated)\b/i *)
  mkKeyword (bounded [lit "recommend"; lit "suggest"; lit "best"; lit "top";
                      seq [lit "highest"; AnyChar; lit "rated"]])
    0.30 "recommendation";
  mkKeyword (bounded [lit "latest"; lit "recent"; lit "current"; lit "today";
                      lit "news"; lit "price"])
    0.30 "real-time";
  mkKeyword (bounded [lit "buy"; lit "purchase"; lit "order"; lit "shop";
                      lit "deal"; lit "discount"])
    0.25 "shopping";
  mkKeyword (bounded [lit "summarize"; lit "plan"; lit "design"; lit "architect"])
    0.20 "planning";
  mkKeyword (bounded [lit "help me"; lit "assist"; lit "guide"])
    0.10 "assistance"
].

(** [\s*[.!?]?\s*$], the tail of the two anchored patterns. *)
Definition sentence_end : regex :=
  seq [Star Space; Opt (OneOf (str ".!?")); Star Space; Eol].

Definition SIMPLE_KEYWORDS : list Keyword := [
  (* /\b(read|cat|show|display|print)\s+(the\s+)?(file|content)/i *)
  mkKeyword (seq [WordB; words ["read"; "cat"; "show"; "display"; "print"];
                  Plus Space; Opt (seq [lit "the"; Plus Space]);
                  words ["file"; "content"]])
    (-0.25) "file-read";
  mkKeyword (bounded [lit "list"; lit "ls"; lit "dir"]) (-0.20) "directory";
  mkKeyword (bounded [lit "run"; lit "execute"; lit "exec"]) (-0.10) "command";
  (* /^(yes|no|ok|okay|sure|confirm|yep|nah)\s*[.!?]?\s*$/i *)
  mkKeyword (seq [Bol; words ["yes"; "no"; "ok"; "okay"; "sure"; "confirm";
                              "yep"; "nah"]; sentence_end])
    (-0.35) "confirmation";
  (* /^(hello|hi|hey|thanks|thank you)\s*[.!?]?\s*$/i *)
  mkKeyword (seq [Bol; words ["hello"; "hi"; "hey"; "thanks"; "thank you"];
                  sentence_end])
    (-0.30) "greeting"
].

(** A compiled pattern of the configuration: its [source] and what
    [rx.test] answers (the patterns carry the [i] flag only, so [test]
    keeps no state between calls). *)
Record RegExp : Type := mkRegExp {
  source : string;
  rx_test : text -> bool;
}.

(** [routerCfg.routing]; a pattern that did not compile is [None]. *)
Record RoutingCfg : Type := mkRoutingCfg {
  complexityThreshold : float;
  toolCallsPreferLocal : bool;
  maxLocalResponseTokens : float;
  forceCloudPatterns : list (option RegExp);
  forceLocalPatterns : list (option RegExp);
}.

(** What [classifyComplexity] returns. *)
Record Complexity : Type := mkComplexity {
  cx_score : float;
  cx_reason : string;
  cx_tags : list string;
}.

(** The running [score] and [tags] of the heuristic. *)
Record Acc : Type := mkAcc {
  acc_score : float;
  acc_tags : list string;
}.

(** [if (cond) { score += w; tags.push(tag); }]. *)
Definition bump (cond : bool) (w : float) (tag : string) (a : Acc) : Acc :=
  if cond then mkAcc (acc_score a + w)%float (acc_tags a ++ [tag]) else a.

Definition score_keywords (t : text) (table : list Keyword) (a : Acc) : Acc :=
  fold_left (fun a kw => bump (test true (re kw) t) (w kw) (tag kw) a) table a.

(** The first pattern of a force list that matches, if any. *)
Fixpoint first_match (patterns : list (option RegExp)) (t : text) : option RegExp :=
  match patterns with
  | [] => None
  | Some rx :: rest => if rx_test rx t then Some rx else first_match rest t
  | None :: rest => first_match rest t
  end.

Definition is_complex_tag (t : string) : bool :=
  negb (existsb (String.eqb t)
          ["long-prompt"; "very-long-prompt"; "file-read"; "directory";
           "command"; "confirmation"; "greeting"; "tool-heavy-ctx"]).

(** The weighted scoring of [classifyComplexity], before the clamp. *)
Definition heuristic (msgs : list Message) (t : text) : Acc :=
  let a := mkAcc 0%float [] in
  let words := List.length (split_ws t) in
  let a := bump (Nat.ltb 100 words) 0.15 "long-prompt" a in
  let a := bump (Nat.ltb 300 words) 0.15 "very-long-prompt" a in
  let a := score_keywords t COMPLEX_KEYWORDS a in
  let a := score_keywords t SIMPLE_KEYWORDS a in
  let complexTagCount := List.length (List.filter is_complex_tag (acc_tags a)) in
  let a := bump (Nat.leb 2 complexTagCount) 0.15 "multi-signal" a in
  let a := bump (Nat.ltb 12 words && Nat.leb 1 complexTagCount)
             0.10 "detailed-query" a in
  if Nat.ltb 3 (recentToolCallCount msgs)
  then mkAcc (acc_score a - 0.10)%float (acc_tags a ++ ["tool-heavy-ctx"])
  else a.

Definition context_messages (ctx : Context) : list Message :=
  match messages ctx with Some l => l | None => [] end.

(** Score a context from 0 (trivial / local) to 1 (complex / cloud). *)
Definition classifyComplexity (ctx : Context) (routingCfg : RoutingCfg) : Complexity :=
  let msgs := context_messages ctx in
  let t := lastUserText msgs in
  match first_match (forceCloudPatterns routingCfg) t with
  | Some rx => mkComplexity 1.0 "force-cloud" [source rx]
  | None =>
      match first_match (forceLocalPatterns routingCfg) t with
      | Some rx => mkComplexity 0.0 "force-local" [source rx]
      | None =>
          if isPostToolTurn msgs
          then mkComplexity 0.0 "post-tool-turn" ["post-tool"]
          else
            let a := heuristic msgs t in
            mkComplexity (clamp01 (acc_score a)) "heuristic" (acc_tags a)
      end
  end.

(* ====================================================================== *)
(** * Cloud API key detection *)
(* ====================================================================== *)

(** [{ provider, id }]. *)
Record ModelRef : Type := mkModelRef {
  ref_provider : string;
  ref_id : string;
}.

(** An entry of [cfg.auth.profiles]. *)
Record AuthProfile : Type := mkAuthProfile {
  ap_apiKey : option string;
  ap_mode : option string;
}.

(** An entry of the agent's [auth-profiles.json]. *)
Record AgentProfile : Type := mkAgentProfile {
  gp_token : option string;
  gp_apiKey : option string;
  gp_type : option string;
}.

(** The [routing] and [fallback] blocks of the raw configuration; [None]
    is an absent key. *)
Record RawRouting : Type := mkRawRouting {
  raw_complexityThreshold : option float;
  raw_toolCallsPreferLocal : option bool;
  raw_maxLocalResponseTokens : option float;
  raw_forceCloudPatterns : option (list string);
  raw_forceLocalPatterns : option (list string);
}.

Record RawFallback : Type := mkRawFallback {
  raw_onCloudUnavailable : option string;
  raw_onLocalError : option string;
}.

(** [cfg.agents.defaults.hybridRouter] as written in [openclaw.json]. *)
Record RawHybridRouter : Type := mkRawHybridRouter {
  raw_enabled : bool;
  raw_preference : option string;
  raw_localModel : option ModelRef;
  raw_localTextModel : option ModelRef;
  raw_cloudModel : option ModelRef;
  raw_routing : option RawRouting;
  raw_fallback : option RawFallback;
}.

(** What the router reads of the OpenClaw configuration. *)
Record OpenClawConfig : Type := mkOpenClawConfig {
  auth_profiles : list (string * AuthProfile);   (* cfg.auth.profiles *)
  workspace : option string;                     (* cfg.agents.defaults.workspace *)
  hybridRouter : option RawHybridRouter;         (* cfg.agents.defaults.hybridRouter *)
}.

(** The process around the router: the environment, the profile file of
    each agent directory ([None] when it cannot be read or parsed), the
    default agent directory, and [readFileSync(join(dir, name), "utf-8")]
    ([None] when it throws). *)
Record Host : Type := mkHost {
  env : gmap string string;
  auth_profiles_file : string -> option (list (string * AgentProfile));
  default_agent_dir : string;
  read_file : string -> string -> option text;
}.

(** A string used as a condition: set and not empty. *)
Definition truthy (o : option string) : bool :=
  match o with
  | Some s => negb (String.eqb s "")
  | None => false
  end.

Definition is_value (o : option string) (v : string) : bool :=
  match o with
  | Some s => String.eqb s v
  | None => false
  end.

Definition ENV_KEY_MAP : gmap string string :=
  list_to_map [
    ("anthropic", "ANTHROPIC_API_KEY");
    ("openai", "OPENAI_API_KEY");
    ("google", "GOOGLE_API_KEY");
    ("openrouter", "OPENROUTER_API_KEY");
    ("groq", "GROQ_API_KEY");
    ("xai", "XAI_API_KEY");
    ("mistral", "MISTRAL_API_KEY")
  ].

Definition hasCloudApiKey (host : Host) (cloudModelRef : option ModelRef)
    (cfg : OpenClawConfig) (agentDir : option string) : bool :=
  match cloudModelRef with
  | None => false
  | Some r =>
      let p := ref_provider r in
      (* auth profiles stored in the config *)
      if existsb (fun kp : string * AuthProfile =>
                    String.prefix p (fst kp)
                    && (truthy (ap_apiKey (snd kp)) || is_value (ap_mode (snd kp)) "token"))
           (auth_profiles cfg)
      then true
      else
        (* the agent-level auth-profiles.json *)
        let dir := match agentDir with Some d => d | None => default_agent_dir host end in
        let agentProfiles :=
          match auth_profiles_file host dir with Some l => l | None => [] end in
        if existsb (fun kp : string * AgentProfile =>
                      String.prefix p (fst kp)
                      && (truthy (gp_token (snd kp)) || truthy (gp_apiKey (snd kp))
                          || is_value (gp_type (snd kp)) "oauth"))
             agentProfiles
        then true
        else
          (* environment variables *)
          if match ENV_KEY_MAP !! p with
             | Some envVar => truthy (env host !! envVar)
             | None => false
             end
          then true
          else String.eqb p "anthropic" && truthy (env host !! "ANTHROPIC_OAUTH_TOKEN")
  end.

(* ====================================================================== *)
(** * Routing decision *)
(* ====================================================================== *)

(** A resolved model object, as far as the router looks into it. *)
Record Model : Type := mkModel {
  model_provider : string;
  model_id : string;
}.

(** [{ local, localText, cloud }]. *)
Record Models : Type := mkModels {
  local : option Model;
  localText : option Model;
  cloud : option Model;
}.

Record Fallback : Type := mkFallback {
  onCloudUnavailable : string;
  onLocalError : string;
}.

(** The resolved [HybridRouterConfig]. *)
Record RouterConfig : Type := mkRouterConfig {
  enabled : bool;
  preference : string;
  localModel : ModelRef;
  localTextModel : option ModelRef;
  cloudModel : option ModelRef;
  routing : RoutingCfg;
  fallback : Fallback;
}.

Record Decision : Type := pick {
  target : string;
  model : option Model;
  reason : string;
  score : float;
  tags : list string;
}.

(** [a ?? b]. *)
Definition nullish {A : Type} (a b : option A) : option A :=
  match a with Some _ => a | None => b end.

Definition is_some {A : Type} (a : option A) : bool :=
  match a with Some _ => true | None => false end.

Definition CLOUD_REQUIRED_TAGS : list string :=
  ["search"; "recommendation"; "real-time"; "shopping"].

Definition needsCloud (tags : list string) : bool :=
  existsb (fun t => existsb (String.eqb t) CLOUD_REQUIRED_TAGS) tags.

Definition isToolLike (tags : list string) : bool :=
  existsb (fun t => existsb (String.eqb t)
                      ["file-read"; "directory"; "command";
                       "tool-heavy-ctx"; "post-tool"; "confirmation"]) tags.

(** [models.cloud && hasCloudApiKey(routerCfg.cloudModel, cfg, agentDir)],
    as a condition. *)
Definition cloudAvailable (host : Host) (routerCfg : RouterConfig) (models : Models)
    (cfg : OpenClawConfig) (agentDir : option string) : bool :=
  is_some (cloud models) && hasCloudApiKey host (cloudModel routerCfg) cfg agentDir.

(** The complexity-based rules, taken when [score >= threshold]. *)
Definition complex_route (pref : string) (available : bool) (models : Models)
    (score : float) (tags : list string) : Decision :=
  if String.eqb pref "prefer-local" then
    if (score <? 0.7)%float && is_some (localText models)
    then pick "local-text" (localText models) "prefer-local+moderate" score tags
    else if available
    then pick "cloud" (cloud models) "prefer-local+high" score tags
    else pick "local-text" (nullish (localText models) (local models))
           "prefer-local+high-no-key" score tags
  else if available
  then pick "cloud" (cloud models) "complex+cloud" score tags
  else pick "local-text" (nullish (localText models) (local models))
         "complex+no-key" score tags.

(** The rules for a simple task. *)
Definition simple_route (pref : string) (available : bool) (models : Models)
    (score : float) (tags : list string) : Decision :=
  if isToolLike tags
  then pick "local" (local models) "tool-prefer-local" score tags
  else if String.eqb pref "prefer-cloud" && available
  then pick "cloud" (cloud models) "simple+prefer-cloud" score tags
  else if is_some (localText models)
  then pick "local-text" (localText models) "simple+text" score tags
  else pick "local" (local models) "simple+local" score tags.

(** Decide which model to use for the current LLM call. *)
Definition makeRoutingDecision (host : Host) (ctx : Context) (routerCfg : RouterConfig)
    (models : Models) (cfg : OpenClawConfig) (agentDir : option string) : Decision :=
  let c := classifyComplexity ctx (routing routerCfg) in
  let score := cx_score c in
  let reason := cx_reason c in
  let tags := cx_tags c in
  let pref := preference routerCfg in
  let threshold := complexityThreshold (routing routerCfg) in
  let available := cloudAvailable host routerCfg models cfg agentDir in
  (* absolute preference modes *)
  if String.eqb pref "local-only"
  then pick "local" (local models) "pref:local-only" score tags
  else if String.eqb pref "cloud-only" then
    if available
    then pick "cloud" (cloud models) "pref:cloud-only" score tags
    else pick "local" (local models) "pref:cloud-only-no-key" score tags
  (* force patterns already decided *)
  else if String.eqb reason "force-cloud" then
    if available
    then pick "cloud" (cloud models) reason score tags
    else pick "local-text" (nullish (localText models) (local models))
           "force-cloud-no-key" score tags
  else if String.eqb reason "force-local" || String.eqb reason "post-tool-turn"
  then pick "local" (local models) reason score tags
  (* cloud-required capabilities *)
  else if needsCloud tags && available && negb (String.eqb pref "local-only")
  then pick "cloud" (cloud models) "cloud-capability" score tags
  (* complexity-based routing *)
  else if (threshold <=? score)%float
  then complex_route pref available models score tags
  else simple_route pref available models score tags.

(* ====================================================================== *)
(** * Tool simplification *)
(* ====================================================================== *)

(** A simplified schema [{ name, description, parameters }]; a parameter
    is [(name, type, description)]. *)
Record ToolSchema : Type := mkToolSchema {
  schema_name : string;
  schema_description : string;
  schema_properties : list (string * string * string);
  schema_required : list string;
}.

Definition SIMPLIFIED_TOOL_SCHEMAS : gmap string ToolSchema :=
  list_to_map [
    ("read", mkToolSchema "read" "Read a file."
               [("path", "string", "File path to read")] ["path"]);
    ("exec", mkToolSchema "exec"
               "Run a shell command (ls, cat, git, date, echo, etc.)."
               [("command", "string", "Shell command to run")] ["command"]);
    ("write", mkToolSchema "write" "Write content to a file."
                [("path", "string", "File path");
                 ("content", "string", "File content")] ["path"; "content"]);
    ("edit", mkToolSchema "edit" "Edit a file by replacing text."
               [("path", "string", "File path");
                ("oldText", "string", "Text to find");
                ("newText", "string", "Replacement text")]
               ["path"; "oldText"; "newText"])
  ].

(** The properties that the object literal inherits from
    [Object.prototype]: [SIMPLIFIED_TOOL_SCHEMAS[name]] is a function (or
    the prototype itself) for these names, which counts as true and has
    neither [description] nor [parameters]. *)
Definition OBJECT_PROTOTYPE_KEYS : list string :=
  ["constructor"; "__defineGetter__"; "__defineSetter__"; "hasOwnProperty";
   "__lookupGetter__"; "__lookupSetter__"; "isPrototypeOf";
   "propertyIsEnumerable"; "toString"; "valueOf"; "__proto__";
   "toLocaleString"].

(** What [SIMPLIFIED_TOOL_SCHEMAS[name]] gives when it counts as true:
    the [description] and [parameters] read from it. *)
Definition schema_lookup (name : string) : option (JsValue * JsValue) :=
  match SIMPLIFIED_TOOL_SCHEMAS !! name with
  | Some s =>
      Some (JString (schema_description s),
            JSchema (schema_properties s) (schema_required s))
  | None =>
      if existsb (String.eqb name) OBJECT_PROTOTYPE_KEYS
      then Some (JUndefined, JUndefined)
      else None
  end.

(** [tool?.name ?? tool?.function?.name ?? ""]. *)
Definition tool_key (tool : option Tool) : string :=
  match tool with
  | Some t =>
      match tool_name t with
      | Some n => n
      | None => match tool_function_name t with Some n => n | None => "" end
      end
  | None => ""
  end.

(** [{ ...tool, description, parameters, inputSchema: parameters }]. *)
Definition with_schema (t : Tool) (description parameters : JsValue) : Tool :=
  mkTool (tool_name t) (tool_function_name t)
    (Some description) (Some parameters) (Some parameters) (tool_rest t).

(** One turn of the loop of [simplifyToolsForLocalModel] over the state
    [(simplified, seen)]. *)
Definition simplify_step (st : list (option Tool) * gset string) (tool : option Tool)
    : list (option Tool) * gset string :=
  let '(simplified, seen) := st in
  let name := tool_key tool in
  match schema_lookup name, tool with
  | Some (description, parameters), Some t =>
      if bool_decide (name ∈ seen) then st
      else (simplified ++ [Some (with_schema t description parameters)],
            {[name]} ∪ seen)
  | _, _ => st
  end.

(** Replace full OpenClaw tool definitions with simplified schemas. *)
Definition simplifyToolsForLocalModel (tools : list (option Tool)) : list (option Tool) :=
  fst (fold_left simplify_step tools ([], ∅)).

(* ====================================================================== *)
(** * Context adaptation *)
(* ====================================================================== *)

(** The two module-level prompts, reassigned when a wrapper is created. *)
Record Prompts : Type := mkPrompts {
  LOCAL_TOOL_SYSTEM_PROMPT : text;
  LOCAL_TEXT_SYSTEM_PROMPT : text;
}.

Definition BASE_TOOL_PROMPT : text :=
  join (str " ") [
    str "You MUST use tools for every request.";
    str "Available: read (read files), exec (run ANY shell command like ls, date, echo, git, etc.),";
    str "write (create files), edit (modify files).";
    str "ALWAYS call a tool. Never refuse. Be concise."
  ].

Definition BASE_TEXT_PROMPT : text := str "Answer clearly and concisely.".

(** The prompts before any wrapper is created. *)
Definition initial_prompts : Prompts :=
  mkPrompts
    (str "You are a helpful coding assistant with access to tools. " ++ BASE_TOOL_PROMPT)
    (str "You are a helpful assistant. " ++ BASE_TEXT_PROMPT).

(** The adaptation of the context to the target in the wrapped stream
    function: [effectiveContext]. *)
Definition adaptContext (prompts : Prompts) (ctx : Context) (target : string) : Context :=
  if String.eqb target "local-text" then
    mkContext (Some (LOCAL_TEXT_SYSTEM_PROMPT prompts)) (messages ctx) (Some [])
  else if String.eqb target "local" then
    let simplifiedTools :=
      simplifyToolsForLocalModel (match tools ctx with Some l => l | None => [] end) in
    mkContext (Some (LOCAL_TOOL_SYSTEM_PROMPT prompts)) (messages ctx) (Some simplifiedTools)
  else ctx.

(* ====================================================================== *)
(** * Identity preamble *)
(* ====================================================================== *)

(** [content.match(/\*\*Label:\*\*\s*(.+)/)]: group 1 of the leftmost
    match, [None] when nothing matches.  The patterns carry no flag. *)
Definition match_label (label : string) (content : text) : option text :=
  search false (seq [lit (String.append "**" (String.append label ":**")); Star Space])
    None content
    (fun p s1 =>
       rmatch false (Plus AnyChar) p s1
         (fun _ s2 => Some (firstn (List.length s1 - List.length s2) s1))).

(** [d.replace(/\*\*/g, "")]. *)
Fixpoint remove_double_stars (s : text) : text :=
  match s with
  | c :: rest =>
      match rest with
      | c' :: rest' =>
          if N.eqb c 42 && N.eqb c' 42 then remove_double_stars rest'
          else c :: remove_double_stars rest
      | [] => [c]
      end
  | [] => []
  end.

Fixpoint drop_dots (s : text) : text :=
  match s with
  | c :: s' => if N.eqb c 46 then drop_dots s' else s
  | [] => []
  end.

(** [d.replace(/\.+$/, "")]. *)
Definition strip_trailing_dots (s : text) : text := rev (drop_dots (rev s)).

(** The bold directives of SOUL.md: [soul.match(/\*\*([^*]+)\*\*/g)],
    cleaned, the long ones skipped, at most four. *)
Definition soul_directives (soul : text) : list text :=
  let directives :=
    match_all (List.length soul) false
      (seq [lit "**"; Plus (NoneOf [42%N]); lit "**"]) None soul in
  firstn 4
    (List.filter (fun d => Nat.ltb (List.length d) 80)
       (List.map (fun d => strip_trailing_dots (trim (remove_double_stars d)))
          directives)).

(** A string used as a condition. *)
Definition nonempty (o : option text) : option text :=
  match o with
  | Some [] => None
  | _ => o
  end.

(** Read workspace identity files and build a compact personality
    preamble. *)
Definition buildIdentityPreamble (host : Host) (workspaceDir : option string) : text :=
  match workspaceDir with
  | None => str "You are a helpful assistant."
  | Some dir =>
      if String.eqb dir "" then str "You are a helpful assistant."
      else
        let identity := read_file host dir "IDENTITY.md" in
        let field label :=
          match identity with
          | Some content => option_map trim (match_label label content)
          | None => None
          end in
        let name := field "Name" in
        let fullName := field "Full Name" in
        let vibe := field "Vibe" in
        let soulBits :=
          match read_file host dir "SOUL.md" with
          | Some soul => soul_directives soul
          | None => []
          end in
        let userName :=
          match read_file host dir "USER.md" with
          | Some user =>
              match match_label "What to call them" user with
              | Some call => Some (trim call)
              | None => option_map trim (match_label "Name" user)
              end
          | None => None
          end in
        let parts :=
          [match nonempty name, nonempty fullName with
           | Some n, Some f =>
               str "You are " ++ n ++ str " (" ++ f ++ str "), a helpful AI assistant."
           | Some n, None => str "You are " ++ n ++ str ", a helpful AI assistant."
           | None, _ => str "You are a helpful AI assistant."
           end]
          ++ match nonempty userName with
             | Some u => [str "You are assisting " ++ u ++ str "."]
             | None => []
             end
          ++ match nonempty vibe with
             | Some v => [str "Your vibe: " ++ v]
             | None => []
             end
          ++ (if Nat.ltb 0 (List.length soulBits)
              then [join (str ". ") soulBits ++ str "."] else [])
          ++ [str "Never say you are Gemma, LLaMA, or any other model. You are only "
              ++ match nonempty name with Some n => n | None => str "this assistant" end
              ++ str "."] in
        join (str " ") parts
  end.

(* ====================================================================== *)
(** * Logging *)
(* ====================================================================== *)

(** The lines written through [logInfo] and [logWarn]; the lines with
    formatted numbers or objects keep their arguments. *)
Inductive LogEntry : Type :=
| Warn (msg : string)
| Info (msg : string)
| InfoPreamble (head : text)
| InfoEnabled (preference : string) (models : Models) (cloudKey : bool)
| InfoRoute (target : string) (effectiveModel : Model) (score : float)
    (reason : string) (tags : list string).

(* ====================================================================== *)
(** * Configuration resolution and the stream-function wrapper *)
(* ====================================================================== *)

(** What [resolveModel(provider, id, agentDir, cfg)] does. *)
Inductive ResolveOutcome : Type :=
| Resolved (model : option Model) (error : option string)
| ResolveThrew (message : string).

(** What [await resolveApiKeyForProvider({ provider, cfg, agentDir })]
    does: an object with [apiKey] and [source], nothing, or an exception. *)
Inductive KeyOutcome : Type :=
| KeyInfo (apiKey : option string) (source : string)
| KeyNothing
| KeyThrew (message : string).

(** The options bag of a call: [apiKey] and the rest. *)
Record Options : Type := mkOptions {
  opt_apiKey : option string;
  opt_rest : list (string * JsValue);
}.

(** [params] of [createHybridRouterWrapper]. *)
Record Params : Type := mkParams {
  params_cfg : OpenClawConfig;
  params_agentDir : option string;
  params_authStorage : bool;     (* whether [params.authStorage] is given *)
}.

(** What the closure [wrapStreamFn] captures. *)
Record Wrapper : Type := mkWrapper {
  wrapper_routerCfg : RouterConfig;
  wrapper_models : Models;
  wrapper_agentDir : string;
  wrapper_params : Params;
}.

(** The state a wrapper changes: the cache [resolvedProviderKeys], the
    keys handed to [authStorage.setRuntimeApiKey], and the log. *)
Record WrapperState : Type := mkWrapperState {
  resolvedProviderKeys : gmap string string;
  runtimeApiKeys : list (string * string);
  log : list LogEntry;
}.

Definition initial_state : WrapperState := mkWrapperState ∅ [] [].

Definition write_log (e : LogEntry) (st : WrapperState) : WrapperState :=
  mkWrapperState (resolvedProviderKeys st) (runtimeApiKeys st) (log st ++ [e]).

(** How a call of the wrapped function ends: it calls
    [streamFn(effectiveModel, effectiveContext, effectiveOptions)], or a
    property of [null] is read and the call is rejected. *)
Inductive Outcome : Type :=
| Delegated (effectiveModel : option Model) (effectiveContext : Context)
    (effectiveOptions : option Options)
| Rejected (error : string).

Section Router.

(** [new RegExp(pattern, "i")]: [None] when the pattern is invalid and the
    constructor throws. *)
Variable RegExp_new : string -> option RegExp.

(** The host's model resolution and key resolution, imported from
    [pi-embedded-runner/model.js] and [model-auth.js]. *)
Variable resolveModel : string -> string -> string -> OpenClawConfig -> ResolveOutcome.
Variable resolveApiKeyForProvider : string -> OpenClawConfig -> string -> KeyOutcome.

(** Compile a regex pattern string, returning null on invalid patterns. *)
Definition safeRegex (pattern : string) : option RegExp * list LogEntry :=
  match RegExp_new pattern with
  | Some rx => (Some rx, [])
  | None => (None, [Warn (String.append "invalid regex pattern ignored: " pattern)])
  end.

(** [patterns.map(safeRegex)], with the warnings in order. *)
Definition map_safeRegex (patterns : list string) : list (option RegExp) * list LogEntry :=
  (List.map (fun p => fst (safeRegex p)) patterns,
   concat (List.map (fun p => snd (safeRegex p)) patterns)).

(** [o ?? d]. *)
Definition or_else {A : Type} (o : option A) (d : A) : A :=
  match o with Some a => a | None => d end.

(** [rc.routing?.field ?? d]. *)
Definition routing_field {A : Type} (rc : RawHybridRouter)
    (field : RawRouting -> option A) (d : A) : A :=
  match raw_routing rc with
  | Some r => or_else (field r) d
  | None => d
  end.

Definition fallback_field (rc : RawHybridRouter)
    (field : RawFallback -> option string) (d : string) : string :=
  match raw_fallback rc with
  | Some f => or_else (field f) d
  | None => d
  end.

(** Read hybridRouter config from the OpenClaw config object.  Returns
    null when the router is disabled or not configured. *)
Definition resolveHybridRouterConfig (cfg : OpenClawConfig)
    : option RouterConfig * list LogEntry :=
  match hybridRouter cfg with
  | None => (None, [])
  | Some rc =>
      if negb (raw_enabled rc) then (None, [])
      else
        let '(cloudPatterns, warnings1) :=
          map_safeRegex (routing_field rc raw_forceCloudPatterns []) in
        let '(localPatterns, warnings2) :=
          map_safeRegex (routing_field rc raw_forceLocalPatterns []) in
        (Some (mkRouterConfig true
                 (or_else (raw_preference rc) "prefer-local")
                 (or_else (raw_localModel rc) (mkModelRef "ollama" "functiongemma"))
                 (raw_localTextModel rc)
                 (raw_cloudModel rc)
                 (mkRoutingCfg
                    (routing_field rc raw_complexityThreshold 0.5%float)
                    (routing_field rc raw_toolCallsPreferLocal true)
                    (routing_field rc raw_maxLocalResponseTokens 500%float)
                    cloudPatterns localPatterns)
                 (mkFallback
                    (fallback_field rc raw_onCloudUnavailable "local-text")
                    (fallback_field rc raw_onLocalError "cloud"))),
         warnings1 ++ warnings2)
  end.

Definition ref_label (r : ModelRef) : string :=
  String.append (ref_provider r) (String.append "/" (ref_id r)).

(** Resolve a model object from a [{ provider, id }] reference. *)
Definition resolveModelRef (r : option ModelRef) (cfg : OpenClawConfig) (agentDir : string)
    : option Model * list LogEntry :=
  match r with
  | None => (None, [])
  | Some r =>
      match resolveModel (ref_provider r) (ref_id r) agentDir cfg with
      | Resolved m error =>
          if truthy error
          then (None, [Warn (String.append "cannot resolve "
                               (String.append (ref_label r)
                                  (String.append ": " (or_else error ""))))])
          else (m, [])
      | ResolveThrew message =>
          (None, [Warn (String.append "resolveModel threw for "
                          (String.append (ref_label r) (String.append ": " message)))])
      end
  end.

(** [resolvedProviderKeys.get(provider)], as a condition. *)
Definition cached_key (p : string) (st : WrapperState) : option string :=
  match resolvedProviderKeys st !! p with
  | Some key => if String.eqb key "" then None else Some key
  | None => None
  end.

(** The key for a provider other than the caller's: from the cache, or
    resolved, cached and handed to [authStorage]. *)
Definition resolve_key (wr : Wrapper) (p : string) (st : WrapperState)
    : option string * WrapperState :=
  match cached_key p st with
  | Some key => (Some key, st)
  | None =>
      match resolveApiKeyForProvider p (params_cfg (wrapper_params wr))
              (wrapper_agentDir wr) with
      | KeyInfo (Some key) src =>
          if String.eqb key ""
          then (None, write_log (Warn (String.append "auth: no API key resolved for " p)) st)
          else
            let st :=
              mkWrapperState (<[p := key]> (resolvedProviderKeys st))
                (if params_authStorage (wrapper_params wr)
                 then runtimeApiKeys st ++ [(p, key)] else runtimeApiKeys st)
                (log st) in
            (Some key,
             write_log (Info (String.append "auth: resolved API key for "
                                (String.append p (String.append " ("
                                   (String.append src ")"))))) st)
      | KeyInfo None _ | KeyNothing =>
          (None, write_log (Warn (String.append "auth: no API key resolved for " p)) st)
      | KeyThrew message =>
          (None, write_log (Warn (String.append "auth: failed to resolve API key for "
                                    (String.append p (String.append ": " message)))) st)
      end
  end.

(** [{ ...options, apiKey }]. *)
Definition with_apiKey (options : option Options) (apiKey : string) : Options :=
  mkOptions (Some apiKey)
    (match options with Some o => opt_rest o | None => [] end).

(** The function that [wrapStreamFn(streamFn)] returns, up to the call of
    [streamFn]; [prompts] are the module's prompts at the time of the
    call. *)
Definition wrapped (host : Host) (wr : Wrapper) (prompts : Prompts)
    (incoming : option Model) (ctx : Context) (options : option Options)
    (st : WrapperState) : Outcome * WrapperState :=
  let decision :=
    makeRoutingDecision host ctx (wrapper_routerCfg wr) (wrapper_models wr)
      (params_cfg (wrapper_params wr)) (Some (wrapper_agentDir wr)) in
  match nullish (model decision) incoming with
  | None => (Rejected "TypeError", st)        (* effectiveModel.provider *)
  | Some effectiveModel =>
      let st :=
        write_log (InfoRoute (target decision) effectiveModel (score decision)
                     (reason decision) (tags decision)) st in
      match incoming with
      | None => (Rejected "TypeError", st)    (* model.provider *)
      | Some m =>
          let '(effectiveOptions, st) :=
            if negb (String.eqb (model_provider effectiveModel) (model_provider m))
            then
              match resolve_key wr (model_provider effectiveModel) st with
              | (Some apiKey, st) => (Some (with_apiKey options apiKey), st)
              | (None, st) => (options, st)
              end
            else (options, st) in
          let effectiveContext := adaptContext prompts ctx (target decision) in
          (Delegated (Some effectiveModel) effectiveContext effectiveOptions, st)
      end
  end.

(** Create the hybrid router wrapper: the closure, the module's prompts
    afterwards, and the log.  No wrapper when the router is disabled or the
    local model cannot be resolved. *)
Definition createHybridRouterWrapper (host : Host) (params : Params) (prompts : Prompts)
    : option Wrapper * Prompts * list LogEntry :=
  match resolveHybridRouterConfig (params_cfg params) with
  | (None, warnings) => (None, prompts, warnings)
  | (Some routerCfg, warnings) =>
      let cfg := params_cfg params in
      let agentDir := or_else (params_agentDir params) (default_agent_dir host) in
      let identityPreamble := buildIdentityPreamble host (workspace cfg) in
      let prompts :=
        mkPrompts (identityPreamble ++ str " " ++ BASE_TOOL_PROMPT)
                  (identityPreamble ++ str " " ++ BASE_TEXT_PROMPT) in
      let '(mlocal, w1) := resolveModelRef (Some (localModel routerCfg)) cfg agentDir in
      let '(mtext, w2) := resolveModelRef (localTextModel routerCfg) cfg agentDir in
      let '(mcloud, w3) := resolveModelRef (cloudModel routerCfg) cfg agentDir in
      let models := mkModels mlocal mtext mcloud in
      let lines :=
        warnings
        ++ [InfoPreamble (firstn 100 identityPreamble ++ str "...")]
        ++ w1 ++ w2 ++ w3
        ++ [InfoEnabled (preference routerCfg) models
              (hasCloudApiKey host (cloudModel routerCfg) cfg (Some agentDir))] in
      match mlocal with
      | None =>
          (None, prompts,
           lines ++ [Warn "local model could not be resolved — router disabled"])
      | Some _ => (Some (mkWrapper routerCfg models agentDir params), prompts, lines)
      end
  end.

End Router.

(* ====================================================================== *)
(** * Definitions used in the statements and proofs *)
(* ====================================================================== *)

(** ** The scores that the heuristic can reach

    The score is a sum of binary64 numbers, so its possible values are
    computed rather than bounded: [reach f S] adds to [S] the images of its
    members under [f], and [heuristic_scores] follows the conditional
    updates of [heuristic] one by one. *)

Fixpoint float_mem (x : float) (l : list float) : bool :=
  match l with
  | [] => false
  | y :: l' => PrimFloat.Leibniz.eqb x y || float_mem x l'
  end.

Definition float_add (l : list float) (x : float) : list float :=
  if float_mem x l then l else l ++ [x].

Definition reach (f : float -> float) (S : list float) : list float :=
  fold_left float_add (List.map f S) S.

Definition reach_table (table : list Keyword) (S : list float) : list float :=
  fold_left (fun S kw => reach (fun s => s + w kw)%float S) table S.

Definition heuristic_scores : list float :=
  let S := [0%float] in
  let S := reach (fun s => s + 0.15)%float S in
  let S := reach (fun s => s + 0.15)%float S in
  let S := reach_table COMPLEX_KEYWORDS S in
  let S := reach_table SIMPLE_KEYWORDS S in
  let S := reach (fun s => s + 0.15)%float S in
  let S := reach (fun s => s + 0.10)%float S in
  reach (fun s => s - 0.10)%float S.

(** ** Example inputs

    The configuration of the README and of the test suite: the force
    patterns (compiled by hand into [regex]), the three models of the test
    suite and a host with an Anthropic key in the environment. *)

Definition compiled (src : string) (r : regex) : RegExp :=
  mkRegExp src (test true r).

Definition rx_explain_in_detail : RegExp :=
  compiled "explain.*in detail" (seq [lit "explain"; Star AnyChar; lit "in detail"]).
Definition rx_implement_feature : RegExp :=
  compiled "implement.*feature" (seq [lit "implement"; Star AnyChar; lit "feature"]).
Definition rx_refactor : RegExp := compiled "refactor" (lit "refactor").
Definition rx_write_comprehensive : RegExp :=
  compiled "write.*comprehensive" (seq [lit "write"; Star AnyChar; lit "comprehensive"]).

Definition rx_read_file : RegExp :=
  compiled "read.*file" (seq [lit "read"; Star AnyChar; lit "file"]).
Definition rx_list_dir : RegExp :=
  compiled "list.*dir" (seq [lit "list"; Star AnyChar; lit "dir"]).
Definition rx_run_command : RegExp :=
  compiled "run.*command" (seq [lit "run"; Star AnyChar; lit "command"]).
Definition rx_yes_no : RegExp :=
  compiled "^(yes|no|ok|sure)$" (seq [Bol; words ["yes"; "no"; "ok"; "sure"]; Eol]).

Definition readme_routing : RoutingCfg :=
  mkRoutingCfg 0.5 true 500
    [Some rx_explain_in_detail; Some rx_implement_feature; Some rx_refactor;
     Some rx_write_comprehensive]
    [Some rx_read_file; Some rx_list_dir; Some rx_run_command; Some rx_yes_no].

(** The README configuration with a given preference. *)
Definition readme_router (pref : string) : RouterConfig :=
  mkRouterConfig true pref
    (mkModelRef "ollama" "functiongemma:latest")
    (Some (mkModelRef "ollama" "gemma3:270m"))
    (Some (mkModelRef "anthropic" "claude-sonnet-4-5"))
    readme_routing
    (mkFallback "local-text" "cloud").

(** The same without force patterns (both lists default to []). *)
Definition plain_router (pref : string) (threshold : float) : RouterConfig :=
  mkRouterConfig true pref
    (mkModelRef "ollama" "functiongemma:latest")
    (Some (mkModelRef "ollama" "gemma3:270m"))
    (Some (mkModelRef "anthropic" "claude-sonnet-4-5"))
    (mkRoutingCfg threshold true 500 [] [])
    (mkFallback "local-text" "cloud").

Definition suite_models : Models :=
  mkModels (Some (mkModel "ollama" "functiongemma"))
           (Some (mkModel "ollama" "gemma3:270m"))
           (Some (mkModel "anthropic" "claude-sonnet-4-5")).

(** A host whose environment holds ANTHROPIC_API_KEY and that has no
    files. *)
Definition keyed_host : Host :=
  mkHost {[ "ANTHROPIC_API_KEY" := "sk-ant-test" ]} (fun _ => None)
    "/home/user/.openclaw-local/agent" (fun _ _ => None).

Definition empty_config : OpenClawConfig := mkOpenClawConfig [] None None.

Definition user_context (t : string) : Context :=
  mkContext None (Some [user_msg t]) (Some []).

(** ** Texts without letters *)

(** Every match of [r] consumes an ASCII letter. *)
Fixpoint needs_letter (r : regex) : bool :=
  match r with
  | Lit c => CodeUnit.is_letter c
  | Cat r1 r2 => needs_letter r1 || needs_letter r2
  | Alt r1 r2 => needs_letter r1 && needs_letter r2
  | _ => false
  end.

(** No code unit of [t] is an ASCII letter.  Every empty text, every text
    of white space and every text of emoji is such a text: the code units
    of an emoji are surrogate halves, symbols from U+00A9 on, the joiner
    U+200D, the variation selectors, the keycap U+20E3, or a digit, [#] or
    [*] under a keycap. *)
Definition no_letter (t : text) : bool :=
  forallb (fun c => negb (CodeUnit.is_letter c)) t.

(** U+1F916 (robot face) as its surrogate pair. *)
Definition robot_emoji : text := [55358%N; 56598%N].

(** The keycap 1 (digit, U+FE0F, U+20E3), the copyright sign with U+FE0F
    and the robot face, separated by spaces. *)
Definition spaced_emoji : text :=
  [49%N; 65039%N; 8419%N; 32%N; 169%N; 65039%N; 32%N; 55358%N; 56598%N].

(** [n] robot faces separated by single spaces. *)
Definition robots (n : nat) : text := join [32%N] (repeat robot_emoji n).

(** The models of the suite without the local text model. *)
Definition models_without_text : Models :=
  mkModels (Some (mkModel "ollama" "functiongemma")) None
           (Some (mkModel "anthropic" "claude-sonnet-4-5")).

Definition COMPLEX_REASONS : list string :=
  ["prefer-local+moderate"; "prefer-local+high"; "prefer-local+high-no-key";
   "complex+cloud"; "complex+no-key"].

Definition SIMPLE_REASONS : list string :=
  ["tool-prefer-local"; "simple+prefer-cloud"; "simple+text"; "simple+local"].

(** ** Tool simplification as a recursion

    [simplify_from seen tools] is what the loop of
    [simplifyToolsForLocalModel] pushes from the state [seen] on. *)
Fixpoint simplify_from (seen : gset string) (tools : list (option Tool))
    : list (option Tool) :=
  match tools with
  | [] => []
  | tool :: rest =>
      match schema_lookup (tool_key tool), tool with
      | Some (description, parameters), Some t =>
          if bool_decide (tool_key tool ∈ seen) then simplify_from seen rest
          else Some (with_schema t description parameters)
               :: simplify_from ({[tool_key tool]} ∪ seen) rest
      | _, _ => simplify_from seen rest
      end
  end.

(** ** Cloud session affinity *)

(** Modelled from the spec: [wasLastAssistantCloud], which the test suite
    imports from [hybrid-router.js] and which that module does not define.
    The most recent assistant message was produced by a recognised cloud
    provider. *)
Definition RECOGNISED_CLOUD_PROVIDERS : list string :=
  ["anthropic"; "openai"; "google"; "openrouter"; "xai"; "groq"; "mistral"].

Fixpoint last_assistant_down (rev_messages : list Message) : option Message :=
  match rev_messages with
  | [] => None
  | m :: rest =>
      if String.eqb (role m) "assistant" then Some m else last_assistant_down rest
  end.

Definition wasLastAssistantCloud (msgs : list Message) : bool :=
  match last_assistant_down (rev msgs) with
  | Some m =>
      match provider m with
      | Some p => existsb (String.eqb p) RECOGNISED_CLOUD_PROVIDERS
      | None => false
      end
  | None => false
  end.

(** The conversation of the test suite's affinity case: a question, a tool
    call by an assistant of provider [p], and the tool result. *)
Definition post_tool_context (p : string) : Context :=
  mkContext None
    (Some [user_msg "search for something";
           assistant_tool_call p;
           tool_result_msg "results"])
    (Some []).

(** ** Configurations without their invalid patterns *)

Section InvalidPatterns.

Variable RegExp_new : string -> option RegExp.

Definition compiles (pattern : string) : bool := is_some (RegExp_new pattern).

Definition keep_valid (patterns : option (list string)) : option (list string) :=
  option_map (List.filter compiles) patterns.

(** The configuration with the patterns that do not compile taken out of
    both force lists. *)
Definition without_invalid_patterns (cfg : OpenClawConfig) : OpenClawConfig :=
  mkOpenClawConfig (auth_profiles cfg) (workspace cfg)
    (option_map
       (fun rc =>
          mkRawHybridRouter (raw_enabled rc) (raw_preference rc) (raw_localModel rc)
            (raw_localTextModel rc) (raw_cloudModel rc)
            (option_map
               (fun r =>
                  mkRawRouting (raw_complexityThreshold r) (raw_toolCallsPreferLocal r)
                    (raw_maxLocalResponseTokens r)
                    (keep_valid (raw_forceCloudPatterns r))
                    (keep_valid (raw_forceLocalPatterns r)))
               (raw_routing rc))
            (raw_fallback rc))
       (hybridRouter cfg)).

(** The pattern strings of a raw configuration. *)
Definition raw_patterns (rc : RawHybridRouter) : list string :=
  match raw_routing rc with
  | Some r =>
      match raw_forceCloudPatterns r with Some l => l | None => [] end
      ++ match raw_forceLocalPatterns r with Some l => l | None => [] end
  | None => []
  end.

End InvalidPatterns.

(** A stand-in for the regular-expression engine on the patterns of the
    examples: the README's patterns compile to the expressions above, and
    every other string, "(unclosed" among them, is refused. *)
Definition sample_RegExp_new (pattern : string) : option RegExp :=
  List.find (fun rx => String.eqb (source rx) pattern)
    [rx_explain_in_detail; rx_implement_feature; rx_refactor; rx_write_comprehensive;
     rx_read_file; rx_list_dir; rx_run_command; rx_yes_no].

(** The README configuration as written in [openclaw.json], with an
    invalid pattern added to each list. *)
Definition raw_readme_router : RawHybridRouter :=
  mkRawHybridRouter true (Some "prefer-local")
    (Some (mkModelRef "ollama" "functiongemma:latest"))
    (Some (mkModelRef "ollama" "gemma3:270m"))
    (Some (mkModelRef "anthropic" "claude-sonnet-4-5"))
    (Some (mkRawRouting (Some 0.5%float) (Some true) None
             (Some ["(unclosed"; "explain.*in detail"; "refactor"])
             (Some ["read.*file"; "[a-"; "^(yes|no|ok|sure)$"])))
    (Some (mkRawFallback (Some "local-text") (Some "cloud"))).

Definition raw_readme_with_invalid : OpenClawConfig :=
  mkOpenClawConfig [] None (Some raw_readme_router).

(** ** A wrapper whose local model is missing *)

Definition orphan_wrapper : Wrapper :=
  mkWrapper (plain_router "prefer-local" 0.5) (mkModels None None None)
    "/home/user/.openclaw-local/agent" (mkParams empty_config None false).

Definition no_keys (p : string) (cfg : OpenClawConfig) (agentDir : string) : KeyOutcome :=
  KeyNothing.

(** ** Identity examples *)

Definition FALLBACK_OPENING : text := str "You are a helpful AI assistant.".

Definition NEVER_SAY_THIS_ASSISTANT : text :=
  str "Never say you are Gemma, LLaMA, or any other model. You are only this assistant.".

(** A workspace that holds only USER.md. *)
Definition user_only_host : Host :=
  mkHost ∅ (fun _ => None) "/home/user/.openclaw-local/agent"
    (fun dir name =>
       if String.eqb name "USER.md" then Some (str "- **Name:** Alice") else None).

(** ** The routes of the test suite

    The prompts of the repository's test suite under the README
    configuration, with the preference of each test. *)

Definition suite_route (pref prompt : string) : string * string :=
  let d := makeRoutingDecision keyed_host (user_context prompt)
             (readme_router pref) suite_models empty_config None in
  (target d, reason d).

(** ** The tags of the keyword families that match *)

Definition matching (t : text) (table : list Keyword) : list Keyword :=
  List.filter (fun kw => test true (re kw) t) table.

Definition no_match (patterns : list (option RegExp)) (t : text) : Prop :=
  forall rx, In (Some rx) patterns -> rx_test rx t = false.

(** ** The decision of a wrapper and its log line *)

(** [makeRoutingDecision(context, routerCfg, models, params.cfg, agentDir)]
    as the wrapped function calls it. *)
Definition wrapper_decision (host : Host) (wr : Wrapper) (ctx : Context) : Decision :=
  makeRoutingDecision host ctx (wrapper_routerCfg wr) (wrapper_models wr)
    (params_cfg (wrapper_params wr)) (Some (wrapper_agentDir wr)).

(** The log line of a decision [d] for a caller's model [m]. *)
Definition route_line (d : Decision) (m : Model) : LogEntry :=
  InfoRoute (target d) (or_else (model d) m) (score d) (reason d) (tags d).

(** ** A wrapper with its three models resolved *)

(** The wrapper of the README configuration, created with an auth
    storage. *)
Definition suite_wrapper : Wrapper :=
  mkWrapper (readme_router "prefer-local") suite_models
    "/home/user/.openclaw-local/agent" (mkParams empty_config None true).

(** A resolver that finds a key for anthropic in the environment and none
    for any other provider. *)
Definition env_keys (p : string) (cfg : OpenClawConfig) (agentDir : string) : KeyOutcome :=
  if String.eqb p "anthropic" then KeyInfo (Some "sk-ant-test") "env: ANTHROPIC_API_KEY"
  else KeyNothing.


(** A state whose cache holds a key for another provider. *)
Definition openai_cached_state : WrapperState :=
  mkWrapperState {[ "openai" := "sk-openai-cached" ]} [] [].

Definition local_caller : Model := mkModel "ollama" "functiongemma".

Definition detailed_context : Context :=
  user_context "Explain in detail how the scheduler works".

(** ** A stand-in for the host's model registry *)

(** The models of provider ollama and the README's cloud model resolve;
    any other reference is answered with an error. *)
Definition sample_resolveModel (provider id agentDir : string) (cfg : OpenClawConfig)
    : ResolveOutcome :=
  if String.eqb provider "ollama" then Resolved (Some (mkModel provider id)) None
  else if String.eqb provider "anthropic" && String.eqb id "claude-sonnet-4-5"
  then Resolved (Some (mkModel provider id)) None
  else Resolved None (Some "Unknown model").

Definition readme_params : Params := mkParams raw_readme_with_invalid None true.

(** A configuration whose local model the registry does not know. *)
Definition unknown_local_config : OpenClawConfig :=
  mkOpenClawConfig [] None
    (Some (mkRawHybridRouter true None (Some (mkModelRef "lmstudio" "phi-3")) None None
             None None)).

(** ** Identity files *)

Definition NEVER_SAY_OPENING : text :=
  str "Never say you are Gemma, LLaMA, or any other model. You are only ".

Definition HELPFUL_AI_ASSISTANT : text := str ", a helpful AI assistant.".

(** A workspace whose IDENTITY.md names the agent and whose SOUL.md holds
    bold directives. *)
Definition named_host : Host :=
  mkHost ∅ (fun _ => None) "/home/user/.openclaw-local/agent"
    (fun dir name =>
       if String.eqb name "IDENTITY.md"
       then Some (str "# IDENTITY.md

- **Name:** jarvis
- **Vibe:** Sharp and dry
")
       else if String.eqb name "SOUL.md"
       then Some (str "**Be genuinely helpful.** Skip the filler. **Have opinions.**")
       else None).

(** ** The identity wizard

    [promptIdentityConfig] of the configure wizard writes the file that
    [buildIdentityPreamble] reads. *)

(** [s.startsWith(p)]. *)
Fixpoint starts_with (p s : text) : bool :=
  match p, s with
  | [], _ => true
  | c :: p', d :: s' => N.eqb c d && starts_with p' s'
  | _ :: _, [] => false
  end.

(** Read an existing markdown field value like [**Name:** value]; the
    pattern is the one of the router (the flag [m] of the wizard changes
    nothing in a pattern without [^] and [$]), and placeholder values are
    skipped. *)
Definition readField (content : text) (field : string) : option text :=
  match match_label field content with
  | None => None
  | Some group =>
      let val := trim group in
      if starts_with (str "*(") val || Nat.eqb (List.length val) 0
      then None else Some val
  end.

(** [x || d] on strings. *)
Definition or_text (x d : text) : text :=
  match x with
  | [] => d
  | _ :: _ => x
  end.

(** The IDENTITY.md that the wizard writes from scratch: [lines.join("\n")];
    [born] is the formatted date of the day. *)
Definition fresh_identity (agentName fullName vibe emoji born : text) : text :=
  join [10%N]
    ([str "# IDENTITY.md - Who Am I?"; []; str "- **Name:** " ++ agentName]
     ++ match fullName with
        | [] => []
        | _ :: _ => [str "- **Full Name:** " ++ fullName]
        end
     ++ [str "- **Creature:** Transformer-based AI";
         str "- **Vibe:** " ++ or_text vibe (str "Helpful and sharp");
         str "- **Emoji:** " ++ or_text emoji robot_emoji;
         str "- **Avatar:** *(not set yet)*";
         []; str "---"; [];
         str "Born: " ++ born;
         []; str "Notes:";
         str "- Save this file at the workspace root as `IDENTITY.md`.";
         str "- For avatars, use a workspace-relative path like `avatars/openclaw.png`.";
         []]).

(** The code unit before the input that follows [u], where [p] is the one
    before [u]. *)
Definition last_or (u : text) (p : option N) : option N :=
  match last u with
  | Some c => Some c
  | None => p
  end.

(** A workspace whose IDENTITY.md is the wizard's for the given answers. *)
Definition wizard_host (agentName fullName vibe emoji born : text) : Host :=
  mkHost ∅ (fun _ => None) "/home/user/.openclaw-local/agent"
    (fun dir name =>
       if String.eqb name "IDENTITY.md"
       then Some (fresh_identity agentName fullName vibe emoji born)
       else None).

(* ====================================================================== *)
(** * Properties *)
(* ====================================================================== *)

(** ** Numbers *)

Lemma float_mem_In x l : float_mem x l = true <-> In x l.
Proof.
  induction l as [|y l IH]; simpl.
  - split; [discriminate | tauto].
  - rewrite orb_true_iff, IH, FloatAxioms.Leibniz.eqb_spec. split; intros [H|H]; auto.
Qed.

Lemma float_add_incl l x y : In y l -> In y (float_add l x).
Proof. unfold float_add. destruct (float_mem x l); auto. intros. apply in_or_app; auto. Qed.

Lemma float_add_new l x : In x (float_add l x).
Proof.
  unfold float_add. destruct (float_mem x l) eqn:E.
  - now apply float_mem_In.
  - apply in_or_app. right. now left.
Qed.

Lemma fold_float_add_incl xs l y : In y l -> In y (fold_left float_add xs l).
Proof. revert l. induction xs as [|x xs IH]; simpl; auto using float_add_incl. Qed.

Lemma fold_float_add_new xs l y : In y xs -> In y (fold_left float_add xs l).
Proof.
  revert l. induction xs as [|x xs IH]; simpl; [tauto|].
  intros l [->|H]; [apply fold_float_add_incl, float_add_new | auto].
Qed.

Lemma reach_keep f S x : In x S -> In x (reach f S).
Proof. apply fold_float_add_incl. Qed.

Lemma reach_apply f S x : In x S -> In (f x) (reach f S).
Proof. intros H. apply fold_float_add_new, in_map, H. Qed.

Lemma bump_reach c wt tg a S :
  In (acc_score a) S -> In (acc_score (bump c wt tg a)) (reach (fun s => s + wt)%float S).
Proof.
  intros H. destruct c; simpl.
  - now apply (reach_apply (fun s => s + wt)%float).
  - now apply reach_keep.
Qed.

Lemma score_keywords_reach t table : forall a S,
  In (acc_score a) S -> In (acc_score (score_keywords t table a)) (reach_table table S).
Proof.
  induction table as [|kw table IH]; intros a S H; [exact H|].
  apply IH, bump_reach, H.
Qed.

Local Opaque reach reach_table.
Lemma heuristic_reach msgs t : In (acc_score (heuristic msgs t)) heuristic_scores.
Proof.
  unfold heuristic, heuristic_scores. cbv zeta.
  match goal with
  | |- In (acc_score (if ?c then mkAcc (acc_score ?a - ?d)%float ?tg else _)) (reach ?f ?S) =>
      assert (H : In (acc_score a) S);
      [| destruct c; [apply (reach_apply f S _ H) | apply (reach_keep f S _ H)]]
  end.
  do 2 apply bump_reach. do 2 apply score_keywords_reach. do 2 apply bump_reach.
  now left.
Qed.
Local Transparent reach reach_table.

Lemma heuristic_scores_not_nan :
  forallb (fun s => negb (PrimFloat.is_nan s)) heuristic_scores = true.
Proof. vm_compute. reflexivity. Qed.

Lemma heuristic_not_nan msgs t : PrimFloat.is_nan (acc_score (heuristic msgs t)) = false.
Proof.
  pose proof heuristic_scores_not_nan as H.
  rewrite forallb_forall in H. specialize (H _ (heuristic_reach msgs t)).
  now apply negb_true_iff in H.
Qed.

Lemma ltb_leb x y : (x <? y)%float = true -> (x <=? y)%float = true.
Proof.
  rewrite ltb_spec, leb_spec. unfold SFltb, SFleb.
  destruct (SFcompare _ _) as [[]|]; congruence.
Qed.

Lemma min_with_one s :
  PrimFloat.is_nan s = false ->
  JsMath.min [1%float; s] = if (s <? 1)%float then s else 1%float.
Proof.
  intros Hs. unfold JsMath.min. cbn [existsb fold_left]. rewrite Hs.
  change (PrimFloat.is_nan 1) with false. cbn [orb].
  change (JsMath.min_step infinity 1) with 1%float.
  unfold JsMath.min_step.
  change (JsMath.is_pos_zero 1) with false.
  now rewrite andb_false_r.
Qed.

Lemma max_with_zero t :
  PrimFloat.is_nan t = false ->
  JsMath.max [0%float; t] = if (0 <? t)%float then t else 0%float.
Proof.
  intros Ht. unfold JsMath.max. cbn [existsb fold_left]. rewrite Ht.
  change (PrimFloat.is_nan 0) with false. cbn [orb].
  change (JsMath.max_step neg_infinity 0) with 0%float.
  unfold JsMath.max_step.
  change (JsMath.is_neg_zero 0) with false.
  now rewrite andb_false_r.
Qed.

Lemma clamp01_cases s :
  PrimFloat.is_nan s = false ->
  clamp01 s =
    if (s <? 1)%float then (if (0 <? s)%float then s else 0%float) else 1%float.
Proof.
  intros Hs. unfold clamp01. rewrite (min_with_one s Hs).
  destruct (s <? 1)%float eqn:E1.
  - now rewrite (max_with_zero s Hs).
  - now rewrite max_with_zero.
Qed.

Lemma clamp01_unit s :
  PrimFloat.is_nan s = false ->
  (0 <=? clamp01 s)%float = true /\ (clamp01 s <=? 1)%float = true.
Proof.
  intros Hs. rewrite (clamp01_cases s Hs).
  destruct (s <? 1)%float eqn:E1; [destruct (0 <? s)%float eqn:E0|].
  - split; now apply ltb_leb.
  - split; reflexivity.
  - split; reflexivity.
Qed.

(** ** The classifier *)

Lemma first_match_some patterns t rx :
  In (Some rx) patterns -> rx_test rx t = true ->
  exists rx', first_match patterns t = Some rx' /\
              In (Some rx') patterns /\ rx_test rx' t = true.
Proof.
  induction patterns as [|[p|] patterns IH]; simpl; [tauto| |].
  - intros [E|H] Ht.
    + injection E as ->. rewrite Ht. eauto.
    + destruct (rx_test p t) eqn:Ep; [eauto|].
      destruct (IH H Ht) as (rx' & ? & ? & ?). eauto.
  - intros [E|H] Ht; [discriminate|].
    destruct (IH H Ht) as (rx' & ? & ? & ?). eauto.
Qed.

Lemma classify_score_unit ctx routingCfg :
  (0 <=? cx_score (classifyComplexity ctx routingCfg))%float = true /\
  (cx_score (classifyComplexity ctx routingCfg) <=? 1)%float = true.
Proof.
  unfold classifyComplexity.
  destruct (first_match (forceCloudPatterns routingCfg) _); [split; reflexivity|].
  destruct (first_match (forceLocalPatterns routingCfg) _); [split; reflexivity|].
  destruct (isPostToolTurn _); [split; reflexivity|].
  apply clamp01_unit, heuristic_not_nan.
Qed.

(** ** The decision *)

Ltac split_ifs :=
  repeat match goal with
         | |- context [if ?b then _ else _] => destruct b eqn:?
         end.

Lemma decision_carries_classification host ctx routerCfg models cfg agentDir :
  let d := makeRoutingDecision host ctx routerCfg models cfg agentDir in
  let c := classifyComplexity ctx (routing routerCfg) in
  score d = cx_score c /\ tags d = cx_tags c.
Proof.
  cbv zeta. unfold makeRoutingDecision, complex_route, simple_route.
  split_ifs; split; reflexivity.
Qed.

(** C3.  For every context and every configuration, the score of the
    decision of [makeRoutingDecision] is the score of [classifyComplexity],
    and it lies between 0 and 1. *)
Theorem score_in_unit_interval host ctx routerCfg models cfg agentDir :
  let d := makeRoutingDecision host ctx routerCfg models cfg agentDir in
  score d = cx_score (classifyComplexity ctx (routing routerCfg)) /\
  (0 <=? score d)%float = true /\ (score d <=? 1)%float = true.
Proof.
  cbv zeta.
  destruct (decision_carries_classification host ctx routerCfg models cfg agentDir) as [-> _].
  split; [reflexivity | apply classify_score_unit].
Qed.

(** C4.  When the last user text matches a force-cloud pattern and a
    force-local pattern, [classifyComplexity] answers with score 1.0, the
    reason "force-cloud" and the source of a matching force-cloud pattern
    as its tag, and never with "force-local". *)
Theorem force_cloud_before_force_local ctx routingCfg rc rl :
  let t := lastUserText (context_messages ctx) in
  In (Some rc) (forceCloudPatterns routingCfg) -> rx_test rc t = true ->
  In (Some rl) (forceLocalPatterns routingCfg) -> rx_test rl t = true ->
  let c := classifyComplexity ctx routingCfg in
  cx_score c = 1.0%float /\ cx_reason c = "force-cloud" /\ cx_reason c <> "force-local" /\
  exists rx, In (Some rx) (forceCloudPatterns routingCfg) /\ rx_test rx t = true /\
             cx_tags c = [source rx].
Proof.
  cbv zeta. intros Hin Ht _ _. unfold classifyComplexity.
  destruct (first_match_some _ _ _ Hin Ht) as (rx & -> & Hrx & Htest).
  repeat split; [discriminate|]. exists rx. auto.
Qed.

Lemma force_cloud_before_force_local_witness :
  let ctx := user_context "read the file and explain in detail what it does" in
  let c := classifyComplexity ctx readme_routing in
  cx_score c = 1.0%float /\ cx_reason c = "force-cloud" /\ cx_reason c <> "force-local" /\
  exists rx, In (Some rx) (forceCloudPatterns readme_routing) /\
             rx_test rx (lastUserText (context_messages ctx)) = true /\
             cx_tags c = [source rx].
Proof.
  apply (force_cloud_before_force_local
           (user_context "read the file and explain in detail what it does")
           readme_routing rx_explain_in_detail rx_read_file).
  - now left.
  - vm_compute. reflexivity.
  - now left.
  - vm_compute. reflexivity.
Defined.

Lemma force_cloud_reason ctx routingCfg rx :
  In (Some rx) (forceCloudPatterns routingCfg) ->
  rx_test rx (lastUserText (context_messages ctx)) = true ->
  cx_reason (classifyComplexity ctx routingCfg) = "force-cloud".
Proof.
  intros Hin Ht. unfold classifyComplexity.
  now destruct (first_match_some _ _ _ Hin Ht) as (rx' & -> & _).
Qed.

(** C2, as written, fails: with the preference "local-only" the first rule
    answers "local" although a force-cloud pattern matches the text and
    the cloud model is available. *)
Lemma force_cloud_local_only_counterexample :
  let ctx := user_context "Explain in detail how closures work" in
  let routerCfg := readme_router "local-only" in
  let d := makeRoutingDecision keyed_host ctx routerCfg suite_models empty_config None in
  In (Some rx_explain_in_detail) (forceCloudPatterns (routing routerCfg)) /\
  rx_test rx_explain_in_detail (lastUserText (context_messages ctx)) = true /\
  cloudAvailable keyed_host routerCfg suite_models empty_config None = true /\
  target d = "local" /\ target d <> "cloud".
Proof.
  cbv zeta. split; [now left|].
  split; [vm_compute; reflexivity|].
  split; [vm_compute; reflexivity|].
  split; [vm_compute; reflexivity|].
  vm_compute. discriminate.
Qed.

(** C2, amended.  When a force-cloud pattern matches the last user text,
    the cloud is available and the preference is not "local-only",
    [makeRoutingDecision] answers "cloud". *)
Theorem force_cloud_routes_to_cloud host ctx routerCfg models cfg agentDir rx :
  In (Some rx) (forceCloudPatterns (routing routerCfg)) ->
  rx_test rx (lastUserText (context_messages ctx)) = true ->
  cloudAvailable host routerCfg models cfg agentDir = true ->
  preference routerCfg <> "local-only" ->
  target (makeRoutingDecision host ctx routerCfg models cfg agentDir) = "cloud".
Proof.
  intros Hin Ht Hav Hpref. unfold makeRoutingDecision.
  rewrite (force_cloud_reason ctx _ rx Hin Ht), Hav.
  destruct (String.eqb_spec (preference routerCfg) "local-only") as [E|_]; [contradiction|].
  destruct (String.eqb (preference routerCfg) "cloud-only"); reflexivity.
Qed.

Lemma force_cloud_routes_to_cloud_witness :
  target (makeRoutingDecision keyed_host
            (user_context "Explain in detail how the event loop works")
            (readme_router "prefer-local") suite_models empty_config None) = "cloud".
Proof.
  apply (force_cloud_routes_to_cloud keyed_host _ (readme_router "prefer-local")
           suite_models empty_config None rx_explain_in_detail).
  - now left.
  - vm_compute. reflexivity.
  - vm_compute. reflexivity.
  - discriminate.
Defined.

Lemma SFcompare_Eq_sym x y : SFcompare x y = Some Eq -> SFcompare y x = Some Eq.
Proof.
  destruct x as [sx|sx| |sx mx ex], y as [sy|sy| |sy my ey]; simpl;
    try discriminate; try reflexivity;
    try (destruct sx; discriminate); try (destruct sy; discriminate).
  - destruct sx, sy; try discriminate; reflexivity.
  - destruct sx, sy; try discriminate.
    + destruct (Z.compare ex ey) eqn:Ee; try discriminate.
      apply Z.compare_eq in Ee. subst ey. rewrite Z.compare_refl.
      intros H. injection H as H.
      destruct (Pos.compare_cont Eq mx my) eqn:Em; try discriminate.
      apply Pos.compare_eq in Em. subst my. now rewrite Pos.compare_cont_refl.
    + destruct (Z.compare ex ey) eqn:Ee; try discriminate.
      apply Z.compare_eq in Ee. subst ey. rewrite Z.compare_refl.
      intros H. injection H as H.
      apply Pos.compare_eq in H. subst my. now rewrite Pos.compare_cont_refl.
Qed.

Lemma eqb_leb x y : (x =? y)%float = true -> (y <=? x)%float = true.
Proof.
  rewrite FloatAxioms.eqb_spec, leb_spec. unfold SFeqb, SFleb.
  destruct (SFcompare (Prim2SF x) (Prim2SF y)) as [[]|] eqn:E; try discriminate.
  now rewrite (SFcompare_Eq_sym _ _ E).
Qed.

Lemma complex_route_reason pref available models s tg :
  In (reason (complex_route pref available models s tg)) COMPLEX_REASONS.
Proof. unfold complex_route. split_ifs; simpl; tauto. Qed.

(** C5.  A context whose score equals the threshold, with the reason
    "heuristic" and no cloud-capability tag, is routed by the rules for a
    complex task: the comparison is [score >= threshold]. *)
Theorem threshold_boundary_inclusive host ctx routerCfg models cfg agentDir :
  let c := classifyComplexity ctx (routing routerCfg) in
  let d := makeRoutingDecision host ctx routerCfg models cfg agentDir in
  (cx_score c =? complexityThreshold (routing routerCfg))%float = true ->
  cx_reason c = "heuristic" ->
  needsCloud (cx_tags c) = false ->
  ~ In (reason d) SIMPLE_REASONS /\
  (preference routerCfg <> "local-only" -> preference routerCfg <> "cloud-only" ->
   d = complex_route (preference routerCfg)
         (cloudAvailable host routerCfg models cfg agentDir) models
         (cx_score c) (cx_tags c) /\
   In (reason d) COMPLEX_REASONS).
Proof.
  cbv zeta. intros Heq Hreason Hcloud. apply eqb_leb in Heq.
  unfold makeRoutingDecision. rewrite Hreason, Hcloud, Heq. cbn [String.eqb Ascii.eqb Bool.eqb andb orb].
  split.
  - destruct (String.eqb (preference routerCfg) "local-only");
      [simpl; intuition discriminate|].
    destruct (String.eqb (preference routerCfg) "cloud-only").
    + destruct (cloudAvailable _ _ _ _ _); simpl; intuition discriminate.
    + unfold complex_route. split_ifs; simpl; intuition discriminate.
  - intros H1 H2.
    destruct (String.eqb_spec (preference routerCfg) "local-only"); [contradiction|].
    destruct (String.eqb_spec (preference routerCfg) "cloud-only"); [contradiction|].
    split; [reflexivity | apply complex_route_reason].
Qed.

Lemma threshold_boundary_inclusive_witness :
  let routerCfg := plain_router "prefer-local" 0.5 in
  let ctx := user_context "Explain and implement" in
  let d := makeRoutingDecision keyed_host ctx routerCfg suite_models empty_config None in
  cx_score (classifyComplexity ctx (routing routerCfg)) = 0.5%float /\
  ~ In (reason d) SIMPLE_REASONS /\
  (preference routerCfg <> "local-only" -> preference routerCfg <> "cloud-only" ->
   d = complex_route (preference routerCfg)
         (cloudAvailable keyed_host routerCfg suite_models empty_config None) suite_models
         (cx_score (classifyComplexity ctx (routing routerCfg)))
         (cx_tags (classifyComplexity ctx (routing routerCfg))) /\
   In (reason d) COMPLEX_REASONS).
Proof.
  cbv zeta. split; [vm_compute; reflexivity|].
  apply (threshold_boundary_inclusive keyed_host (user_context "Explain and implement")
           (plain_router "prefer-local" 0.5) suite_models empty_config None).
  - vm_compute. reflexivity.
  - vm_compute. reflexivity.
  - vm_compute. reflexivity.
Defined.

(** ** Regular expressions on texts without letters *)

Ltac bool_to_prop :=
  repeat match goal with
         | H : _ |- _ =>
             first [ rewrite orb_true_iff in H | rewrite andb_true_iff in H
                   | rewrite orb_false_iff in H | rewrite andb_false_iff in H
                   | rewrite negb_true_iff in H | rewrite negb_false_iff in H
                   | rewrite N.leb_le in H | rewrite N.leb_gt in H
                   | rewrite N.eqb_eq in H | rewrite N.eqb_neq in H ]
         end.

Lemma letter_literal_needs_letter c x :
  CodeUnit.is_letter c = true -> CodeUnit.is_letter x = false ->
  N.eqb (CodeUnit.upper x) (CodeUnit.upper c) = false.
Proof.
  unfold CodeUnit.is_letter, CodeUnit.upper, CodeUnit.is_upper, CodeUnit.is_lower,
    CodeUnit.in_range.
  intros Hc Hx. apply N.eqb_neq.
  destruct (N.leb 97 x && N.leb x 122) eqn:Ex, (N.leb 97 c && N.leb c 122) eqn:Ec;
    bool_to_prop; lia.
Qed.

Lemma no_letter_tail c s : no_letter (c :: s) = true -> no_letter s = true.
Proof. unfold no_letter. simpl. now intros [_ H]%andb_true_iff. Qed.

(** A match on a text without letters ends in the continuation, on a text
    without letters. *)
Lemma rmatch_none_by_continuation {A : Type} ci r :
  forall prev s (k : option N -> text -> option A),
    no_letter s = true ->
    (forall p s', no_letter s' = true -> k p s' = None) ->
    rmatch ci r prev s k = None.
Proof.
  induction r as [ |c| | | |cs|cs|r1 IH1 r2 IH2|r1 IH1 r2 IH2|r IH| | | ];
    intros prev s k Hs Hk; cbn [rmatch];
    try (destruct s as [|x s']; [reflexivity|];
         destruct (step_ok _ _ _); [apply Hk; eapply no_letter_tail; eauto | reflexivity]).
  - now apply Hk.
  - apply IH1; [assumption|]. intros p s' Hs'. now apply IH2.
  - rewrite IH1 by assumption. now apply IH2.
  - generalize (List.length s). intros n. revert prev s Hs.
    induction n as [|n IHn]; intros prev s Hs; [now apply Hk|].
    rewrite IH; [now apply Hk | assumption |].
    intros p s' Hs'. destruct (Nat.ltb _ _); [now apply IHn | reflexivity].
  - destruct prev; [reflexivity | now apply Hk].
  - destruct s; [now apply Hk | reflexivity].
  - destruct (xorb _ _); [now apply Hk | reflexivity].
Qed.

(** A pattern that needs a letter matches no text without letters. *)
Lemma rmatch_needs_letter {A : Type} r :
  needs_letter r = true ->
  forall prev s (k : option N -> text -> option A),
    no_letter s = true -> rmatch true r prev s k = None.
Proof.
  induction r as [ |c| | | |cs|cs|r1 IH1 r2 IH2|r1 IH1 r2 IH2|r IH| | | ];
    cbn [needs_letter]; try discriminate; intros Hr prev s k Hs; cbn [rmatch].
  - destruct s as [|x s']; [reflexivity|]. cbn [step_ok].
    unfold no_letter in Hs. simpl in Hs. apply andb_true_iff in Hs as [Hx _].
    apply negb_true_iff in Hx. unfold canon.
    now rewrite (letter_literal_needs_letter c x Hr Hx).
  - apply orb_true_iff in Hr as [Hr|Hr].
    + now apply IH1.
    + apply rmatch_none_by_continuation; [assumption|].
      intros p s' Hs'. now apply IH2.
  - apply andb_true_iff in Hr as [Hr1 Hr2].
    rewrite IH1 by assumption. now apply IH2.
Qed.

Lemma search_needs_letter {A : Type} r :
  needs_letter r = true ->
  forall s prev (k : option N -> text -> option A),
    no_letter s = true -> search true r prev s k = None.
Proof.
  intros Hr. induction s as [|c s IH]; intros prev k Hs; simpl;
    rewrite (rmatch_needs_letter r Hr) by assumption; [reflexivity|].
  apply IH. eapply no_letter_tail; eauto.
Qed.

Lemma test_needs_letter r t :
  needs_letter r = true -> no_letter t = true -> test true r t = false.
Proof. intros Hr Ht. unfold test. now rewrite (search_needs_letter r Hr). Qed.

Lemma keywords_need_letters :
  forallb (fun kw => needs_letter (re kw)) (COMPLEX_KEYWORDS ++ SIMPLE_KEYWORDS) = true.
Proof. vm_compute. reflexivity. Qed.

Lemma score_keywords_no_match t table a :
  (forall kw, In kw table -> test true (re kw) t = false) ->
  score_keywords t table a = a.
Proof.
  unfold score_keywords. revert a.
  induction table as [|kw table IH]; intros a H; simpl; [reflexivity|].
  rewrite (H kw (or_introl eq_refl)). simpl. apply IH.
  intros kw' Hin. apply H. now right.
Qed.

Lemma no_keyword_without_letter t kw :
  no_letter t = true -> In kw (COMPLEX_KEYWORDS ++ SIMPLE_KEYWORDS) ->
  test true (re kw) t = false.
Proof.
  intros Ht Hin. apply test_needs_letter; [|assumption].
  pose proof keywords_need_letters as H. rewrite forallb_forall in H. now apply H.
Qed.

(** ** Blank and emoji-only texts *)

(** On a text without ASCII letters no keyword fires, so only the word
    count and the tool-heavy discount are left of the heuristic. *)
Lemma heuristic_no_letter msgs t :
  no_letter t = true ->
  heuristic msgs t =
    let words := List.length (split_ws t) in
    let a := bump (Nat.ltb 100 words) 0.15 "long-prompt" (mkAcc 0%float []) in
    let a := bump (Nat.ltb 300 words) 0.15 "very-long-prompt" a in
    if Nat.ltb 3 (recentToolCallCount msgs)
    then mkAcc (acc_score a - 0.10)%float (acc_tags a ++ ["tool-heavy-ctx"])
    else a.
Proof.
  intros Hl. unfold heuristic. cbv zeta.
  rewrite !score_keywords_no_match;
    [| intros kw Hin; (apply no_keyword_without_letter; [assumption|]);
       apply in_or_app; auto ..].
  destruct (Nat.ltb 100 _), (Nat.ltb 300 _); cbn [bump acc_tags app List.filter];
    change (is_complex_tag "long-prompt") with false;
    change (is_complex_tag "very-long-prompt") with false;
    cbn [List.length Nat.leb andb bump]; rewrite ?andb_false_r; reflexivity.
Qed.

(** Without an available cloud model no rule answers "cloud". *)
Lemma no_cloud_without_availability host ctx routerCfg models cfg agentDir :
  cloudAvailable host routerCfg models cfg agentDir = false ->
  let d := makeRoutingDecision host ctx routerCfg models cfg agentDir in
  target d = "local" \/ target d = "local-text".
Proof.
  intros Hav. cbv zeta. unfold makeRoutingDecision, complex_route, simple_route.
  rewrite Hav, !andb_false_r. cbv iota. split_ifs; simpl in *; auto; discriminate.
Qed.

(** C6, as written, fails.  An empty text, a text of white space and
    texts of emoji are routed to "cloud" when the preference is
    "prefer-cloud" or "cloud-only" and the cloud is available; and 101
    emoji separated by spaces, which are 101 words, get the score 0.15 of
    a long prompt and are routed to "cloud" under "prefer-local" when the
    threshold is 0.1 and there is no local text model. *)
Lemma blank_text_counterexample :
  let route pref threshold models t :=
    target (makeRoutingDecision keyed_host
              (mkContext None (Some [mkMessage "user" (CString t) None None]) None)
              (plain_router pref threshold) models empty_config None) in
  no_letter (str "") = true /\
  no_letter (str "   ") = true /\
  no_letter robot_emoji = true /\
  no_letter spaced_emoji = true /\
  no_letter (robots 101) = true /\
  route "prefer-cloud" 0.5%float suite_models (str "") = "cloud" /\
  route "prefer-cloud" 0.5%float suite_models (str "   ") = "cloud" /\
  route "prefer-cloud" 0.5%float suite_models robot_emoji = "cloud" /\
  route "prefer-cloud" 0.5%float suite_models spaced_emoji = "cloud" /\
  route "cloud-only" 0.5%float suite_models (str "") = "cloud" /\
  route "cloud-only" 0.5%float suite_models robot_emoji = "cloud" /\
  List.length (split_ws (robots 101)) = 101 /\
  route "prefer-local" 0.1%float models_without_text (robots 101) = "cloud".
Proof. cbv zeta. repeat split; vm_compute; reflexivity. Qed.

(** C6, amended.  For a last user text without ASCII letters, as every
    empty text, every text of white space and every text of emoji is,
    that no force-cloud pattern matches, the target is "local" or
    "local-text" when the preference is "local-only", or the cloud is not
    available, or the preference is "prefer-local" and either a local text
    model exists, or the text has at most 100 words and the threshold is
    not at or below 0. *)
Theorem blank_text_stays_local host ctx routerCfg models cfg agentDir :
  let t := lastUserText (context_messages ctx) in
  let d := makeRoutingDecision host ctx routerCfg models cfg agentDir in
  no_letter t = true ->
  first_match (forceCloudPatterns (routing routerCfg)) t = None ->
  (preference routerCfg = "local-only" \/
   cloudAvailable host routerCfg models cfg agentDir = false \/
   (preference routerCfg = "prefer-local" /\
    (is_some (localText models) = true \/
     (List.length (split_ws t) <= 100 /\
      (complexityThreshold (routing routerCfg) <=? 0)%float = false)))) ->
  target d = "local" \/ target d = "local-text".
Proof.
  cbv zeta. intros Ht Hforce [Hpref|[Hav|[Hpref Hcase]]].
  - unfold makeRoutingDecision. rewrite Hpref. now left.
  - now apply no_cloud_without_availability.
  - unfold makeRoutingDecision, classifyComplexity.
    rewrite Hpref, Hforce. cbn [String.eqb Ascii.eqb Bool.eqb].
    destruct (first_match (forceLocalPatterns _) _); [now left|].
    destruct (isPostToolTurn _); [now left|].
    rewrite (heuristic_no_letter _ _ Ht). cbv zeta.
    cbn [cx_score cx_reason cx_tags String.eqb Ascii.eqb Bool.eqb orb].
    destruct Hcase as [Htext|[Hwords Hthr]].
    + (* every score of such a text is below 0.7 *)
      destruct (cloudAvailable host routerCfg models cfg agentDir);
        destruct models as [ml [mt|] mc]; try discriminate Htext;
        destruct (Nat.ltb 100 _), (Nat.ltb 300 _), (Nat.ltb 3 _);
        destruct (_ <=? _)%float; vm_compute; auto.
    + (* the score is 0 *)
      assert (E100 : Nat.ltb 100 (List.length (split_ws (lastUserText (context_messages ctx))))
                     = false) by (apply Nat.ltb_ge; lia).
      assert (E300 : Nat.ltb 300 (List.length (split_ws (lastUserText (context_messages ctx))))
                     = false) by (apply Nat.ltb_ge; lia).
      rewrite E100, E300. cbn [bump].
      destruct (Nat.ltb 3 _); cbn [acc_score acc_tags app].
      * change (clamp01 (0 - 0.10)) with 0%float. rewrite Hthr.
        destruct (cloudAvailable host routerCfg models cfg agentDir);
          destruct models as [ml [mt|] mc]; vm_compute; auto.
      * change (clamp01 0) with 0%float. rewrite Hthr.
        destruct (cloudAvailable host routerCfg models cfg agentDir);
          destruct models as [ml [mt|] mc]; vm_compute; auto.
Qed.

(** Three emoji separated by spaces, a keycap among them, under the
    README's preference with no local text model. *)
Lemma blank_text_stays_local_witness :
  let d := makeRoutingDecision keyed_host
             (mkContext None (Some [mkMessage "user" (CString spaced_emoji) None None]) None)
             (plain_router "prefer-local" 0.5) models_without_text empty_config None in
  no_letter spaced_emoji = true /\
  List.length (split_ws spaced_emoji) = 3 /\
  (target d = "local" \/ target d = "local-text").
Proof.
  cbv zeta. split; [vm_compute; reflexivity|]. split; [vm_compute; reflexivity|].
  apply (blank_text_stays_local keyed_host
           (mkContext None (Some [mkMessage "user" (CString spaced_emoji) None None]) None)
           (plain_router "prefer-local" 0.5) models_without_text empty_config None).
  - vm_compute. reflexivity.
  - reflexivity.
  - right. right. split; [reflexivity|]. right. split.
    + vm_compute. lia.
    + vm_compute. reflexivity.
Defined.

(** ** Cloud session affinity *)

(** After a tool result the classifier answers "post-tool-turn" whoever
    produced the assistant message, and the decision is "local". *)
Lemma post_tool_turn_routes_local host ctx routerCfg models cfg agentDir :
  let msgs := context_messages ctx in
  isPostToolTurn msgs = true ->
  first_match (forceCloudPatterns (routing routerCfg)) (lastUserText msgs) = None ->
  preference routerCfg <> "cloud-only" ->
  target (makeRoutingDecision host ctx routerCfg models cfg agentDir) = "local".
Proof.
  cbv zeta. intros Hpost Hforce Hpref.
  unfold makeRoutingDecision, classifyComplexity. rewrite Hforce, Hpost.
  destruct (String.eqb (preference routerCfg) "local-only"); [reflexivity|].
  destruct (String.eqb_spec (preference routerCfg) "cloud-only"); [contradiction|].
  now destruct (first_match (forceLocalPatterns _) _).
Qed.

(** C1.  The code at the input of the test suite's affinity case: the
    last message is a tool result, the assistant before it is of provider
    "anthropic", the cloud is available and the preference is
    "prefer-local"; the decision is "local" with reason "post-tool-turn",
    where the claim asks for "cloud". *)
Theorem cloud_affinity_failing_input :
  let ctx := post_tool_context "anthropic" in
  let routerCfg := readme_router "prefer-local" in
  let d := makeRoutingDecision keyed_host ctx routerCfg suite_models empty_config None in
  isPostToolTurn (context_messages ctx) = true /\
  wasLastAssistantCloud (context_messages ctx) = true /\
  cloudAvailable keyed_host routerCfg suite_models empty_config None = true /\
  preference routerCfg <> "local-only" /\
  target d = "local" /\ reason d = "post-tool-turn" /\ target d <> "cloud".
Proof.
  cbv zeta. repeat split; try (vm_compute; reflexivity); vm_compute; discriminate.
Qed.

(** ** Tool simplification *)

Lemma simplify_loop tools : forall simplified seen,
  fst (fold_left simplify_step tools (simplified, seen)) =
  simplified ++ simplify_from seen tools.
Proof.
  induction tools as [|tool rest IH]; intros simplified seen; simpl.
  - now rewrite app_nil_r.
  - destruct (schema_lookup (tool_key tool)) as [[d p]|], tool as [t|];
      try apply IH.
    destruct (bool_decide _); [apply IH|].
    rewrite IH. now rewrite <- app_assoc.
Qed.

Lemma simplifyTools_unfold tools :
  simplifyToolsForLocalModel tools = simplify_from ∅ tools.
Proof. unfold simplifyToolsForLocalModel. now rewrite simplify_loop. Qed.

Lemma simplify_from_fresh tools : forall seen x,
  In x (simplify_from seen tools) -> tool_key x ∉ seen.
Proof.
  induction tools as [|tool rest IH]; intros seen x; simpl; [tauto|].
  destruct (schema_lookup (tool_key tool)) as [[d p]|] eqn:E, tool as [t|];
    try apply IH.
  case_bool_decide as Hseen; [apply IH|].
  intros [<-|Hin]; [exact Hseen|].
  apply IH in Hin. rewrite elem_of_union in Hin. tauto.
Qed.

Lemma simplify_from_fixed tools : forall seen seen',
  (forall x, In x (simplify_from seen tools) -> tool_key x ∉ seen') ->
  simplify_from seen' (simplify_from seen tools) = simplify_from seen tools.
Proof.
  induction tools as [|tool rest IH]; intros seen seen' Hfresh;
    cbn [simplify_from] in *; [reflexivity|].
  destruct (schema_lookup (tool_key tool)) as [[d p]|] eqn:E, tool as [t|];
    try (now apply IH).
  case_bool_decide as Hseen; [now apply IH|].
  cbn [simplify_from].
  change (tool_key (Some (with_schema t d p))) with (tool_key (Some t)).
  rewrite E.
  rewrite bool_decide_eq_false_2
    by (apply (Hfresh (Some (with_schema t d p))); now left).
  f_equal. apply IH. intros x Hin.
  pose proof (simplify_from_fresh _ _ _ Hin) as Hnew.
  pose proof (Hfresh x (or_intror Hin)) as Hold.
  rewrite elem_of_union, elem_of_singleton in Hnew |- *. tauto.
Qed.

Lemma simplifyTools_idempotent tools :
  simplifyToolsForLocalModel (simplifyToolsForLocalModel tools) =
  simplifyToolsForLocalModel tools.
Proof.
  rewrite !simplifyTools_unfold. apply simplify_from_fixed.
  intros x _. set_solver.
Qed.

(** C7.  Adapting a context twice to the same target gives what adapting
    it once gives. *)
Theorem adaptContext_idempotent prompts ctx T :
  adaptContext prompts (adaptContext prompts ctx T) T = adaptContext prompts ctx T.
Proof.
  unfold adaptContext.
  destruct (String.eqb T "local-text") eqn:Etext; [reflexivity|].
  destruct (String.eqb T "local") eqn:Elocal; [|reflexivity].
  cbn [tools messages]. now rewrite simplifyTools_idempotent.
Qed.

(** ** Configuration resolution *)

Section InvalidPatternsIgnored.

Variable RegExp_new : string -> option RegExp.

Lemma map_safeRegex_patterns patterns :
  fst (map_safeRegex RegExp_new patterns) = List.map RegExp_new patterns.
Proof.
  unfold map_safeRegex, safeRegex. simpl. apply map_ext.
  intros p. now destruct (RegExp_new p).
Qed.

Lemma map_safeRegex_warns patterns p :
  In p patterns -> RegExp_new p = None ->
  In (Warn (String.append "invalid regex pattern ignored: " p))
     (snd (map_safeRegex RegExp_new patterns)).
Proof.
  intros Hin Hp. unfold map_safeRegex. simpl.
  apply in_concat. exists [Warn (String.append "invalid regex pattern ignored: " p)].
  split; [|now left].
  apply in_map_iff. exists p. split; [|assumption].
  unfold safeRegex. now rewrite Hp.
Qed.

(** A pattern that did not compile is skipped by the classifier. *)
Lemma first_match_keep_valid patterns t :
  first_match (List.map RegExp_new (List.filter (compiles RegExp_new) patterns)) t =
  first_match (List.map RegExp_new patterns) t.
Proof.
  induction patterns as [|p patterns IH]; simpl; [reflexivity|].
  unfold compiles at 1. destruct (RegExp_new p) as [rx|] eqn:Ep; simpl.
  - rewrite Ep. now rewrite IH.
  - exact IH.
Qed.

Lemma resolve_enabled cfg rc :
  hybridRouter cfg = Some rc -> raw_enabled rc = true ->
  resolveHybridRouterConfig RegExp_new cfg =
    (Some (mkRouterConfig true
             (or_else (raw_preference rc) "prefer-local")
             (or_else (raw_localModel rc) (mkModelRef "ollama" "functiongemma"))
             (raw_localTextModel rc) (raw_cloudModel rc)
             (mkRoutingCfg
                (routing_field rc raw_complexityThreshold 0.5%float)
                (routing_field rc raw_toolCallsPreferLocal true)
                (routing_field rc raw_maxLocalResponseTokens 500%float)
                (List.map RegExp_new (routing_field rc raw_forceCloudPatterns []))
                (List.map RegExp_new (routing_field rc raw_forceLocalPatterns [])))
             (mkFallback
                (fallback_field rc raw_onCloudUnavailable "local-text")
                (fallback_field rc raw_onLocalError "cloud"))),
     snd (map_safeRegex RegExp_new (routing_field rc raw_forceCloudPatterns []))
     ++ snd (map_safeRegex RegExp_new (routing_field rc raw_forceLocalPatterns []))).
Proof.
  intros Hcfg Hen. unfold resolveHybridRouterConfig. rewrite Hcfg, Hen. cbn [negb].
  destruct (map_safeRegex RegExp_new (routing_field rc raw_forceCloudPatterns []))
    as [cp w1] eqn:Ec.
  destruct (map_safeRegex RegExp_new (routing_field rc raw_forceLocalPatterns []))
    as [lp w2] eqn:El.
  rewrite <- (map_safeRegex_patterns (routing_field rc raw_forceCloudPatterns [])).
  rewrite <- (map_safeRegex_patterns (routing_field rc raw_forceLocalPatterns [])).
  now rewrite Ec, El.
Qed.

(** C8.  Resolving an enabled configuration returns a configuration
    whatever the pattern strings are: a pattern that does not compile is
    logged and its entry is null.  The classifier then answers as it does
    for the configuration without these patterns, and so does the
    decision. *)
Theorem invalid_patterns_ignored cfg rc :
  hybridRouter cfg = Some rc -> raw_enabled rc = true ->
  exists routerCfg warnings routerCfg' warnings',
    resolveHybridRouterConfig RegExp_new cfg = (Some routerCfg, warnings) /\
    forceCloudPatterns (routing routerCfg)
      = List.map RegExp_new (routing_field rc raw_forceCloudPatterns []) /\
    forceLocalPatterns (routing routerCfg)
      = List.map RegExp_new (routing_field rc raw_forceLocalPatterns []) /\
    (forall p, In p (raw_patterns rc) -> RegExp_new p = None ->
       In (Warn (String.append "invalid regex pattern ignored: " p)) warnings) /\
    resolveHybridRouterConfig RegExp_new (without_invalid_patterns RegExp_new cfg)
      = (Some routerCfg', warnings') /\
    (forall ctx, classifyComplexity ctx (routing routerCfg)
                 = classifyComplexity ctx (routing routerCfg')) /\
    (forall host ctx models c agentDir,
       makeRoutingDecision host ctx routerCfg models c agentDir
       = makeRoutingDecision host ctx routerCfg' models c agentDir).
Proof.
  intros Hcfg Hen.
  set (rc' := match hybridRouter (without_invalid_patterns RegExp_new cfg) with
              | Some r => r | None => rc end).
  assert (Hcfg' : hybridRouter (without_invalid_patterns RegExp_new cfg) = Some rc').
  { subst rc'. unfold without_invalid_patterns. cbn [hybridRouter]. now rewrite Hcfg. }
  assert (Hen' : raw_enabled rc' = true).
  { subst rc'. unfold without_invalid_patterns. cbn [hybridRouter]. now rewrite Hcfg. }
  do 4 eexists.
  split; [exact (resolve_enabled cfg rc Hcfg Hen)|].
  split; [reflexivity|]. split; [reflexivity|].
  split.
  { intros p Hin Hp. apply in_or_app. unfold raw_patterns in Hin. unfold routing_field.
    destruct (raw_routing rc) as [r|]; [|destruct Hin].
    apply in_app_or in Hin as [Hin|Hin]; [left|right];
      (apply map_safeRegex_warns; [|assumption]);
      [destruct (raw_forceCloudPatterns r) | destruct (raw_forceLocalPatterns r)];
      assumption. }
  split; [exact (resolve_enabled _ rc' Hcfg' Hen')|].
  assert (Hclass : forall ctx,
    classifyComplexity ctx
      (mkRoutingCfg
         (routing_field rc raw_complexityThreshold 0.5%float)
         (routing_field rc raw_toolCallsPreferLocal true)
         (routing_field rc raw_maxLocalResponseTokens 500%float)
         (List.map RegExp_new (routing_field rc raw_forceCloudPatterns []))
         (List.map RegExp_new (routing_field rc raw_forceLocalPatterns [])))
    = classifyComplexity ctx
      (mkRoutingCfg
         (routing_field rc' raw_complexityThreshold 0.5%float)
         (routing_field rc' raw_toolCallsPreferLocal true)
         (routing_field rc' raw_maxLocalResponseTokens 500%float)
         (List.map RegExp_new (routing_field rc' raw_forceCloudPatterns []))
         (List.map RegExp_new (routing_field rc' raw_forceLocalPatterns [])))).
  { intros ctx. unfold classifyComplexity. cbn [forceCloudPatterns forceLocalPatterns].
    subst rc'. unfold without_invalid_patterns. cbn [hybridRouter]. rewrite Hcfg.
    unfold routing_field. cbn. destruct (raw_routing rc) as [r|]; cbn; [|reflexivity].
    destruct (raw_forceCloudPatterns r) as [cl|], (raw_forceLocalPatterns r) as [ll|];
      cbn; rewrite ?first_match_keep_valid; reflexivity. }
  split; [exact Hclass|].
  intros host ctx models c agentDir. unfold makeRoutingDecision.
  cbn [routing preference cloudModel]. rewrite Hclass.
  subst rc'. unfold without_invalid_patterns, cloudAvailable. cbn [hybridRouter]. rewrite Hcfg.
  unfold routing_field. cbn. destruct (raw_routing rc) as [r|]; reflexivity.
Qed.

End InvalidPatternsIgnored.

(** The README configuration with an invalid pattern in each list. *)
Lemma invalid_patterns_ignored_witness :
  exists routerCfg warnings routerCfg' warnings',
    resolveHybridRouterConfig sample_RegExp_new raw_readme_with_invalid
      = (Some routerCfg, warnings) /\
    forceCloudPatterns (routing routerCfg)
      = [None; Some rx_explain_in_detail; Some rx_refactor] /\
    forceLocalPatterns (routing routerCfg)
      = [Some rx_read_file; None; Some rx_yes_no] /\
    In (Warn "invalid regex pattern ignored: (unclosed") warnings /\
    In (Warn "invalid regex pattern ignored: [a-") warnings /\
    resolveHybridRouterConfig sample_RegExp_new
      (without_invalid_patterns sample_RegExp_new raw_readme_with_invalid)
      = (Some routerCfg', warnings') /\
    (forall ctx, classifyComplexity ctx (routing routerCfg)
                 = classifyComplexity ctx (routing routerCfg')).
Proof.
  destruct (invalid_patterns_ignored sample_RegExp_new raw_readme_with_invalid
              raw_readme_router eq_refl eq_refl)
    as (routerCfg & warnings & routerCfg' & warnings' & H1 & H2 & H3 & H4 & H5 & H6 & _).
  exists routerCfg, warnings, routerCfg', warnings'.
  split; [exact H1|]. split; [exact H2|]. split; [exact H3|].
  split; [apply H4; [vm_compute; tauto | reflexivity]|].
  split; [apply H4; [vm_compute; tauto | reflexivity]|].
  split; [exact H5 | exact H6].
Defined.

(** ** The wrapped stream function *)

Section DelegatedModel.

Variable resolveApiKeyForProvider : string -> OpenClawConfig -> string -> KeyOutcome.

(** C10.  Whenever the wrapped function calls [streamFn], the model it
    passes is the model of the decision, or the caller's model when the
    decision has none; and with a model from the caller the call is made,
    with a model that is not null. *)
Theorem delegated_model host wr prompts incoming ctx options st :
  let d := makeRoutingDecision host ctx (wrapper_routerCfg wr) (wrapper_models wr)
             (params_cfg (wrapper_params wr)) (Some (wrapper_agentDir wr)) in
  let outcome :=
    fst (wrapped resolveApiKeyForProvider host wr prompts incoming ctx options st) in
  (forall em ec eo, outcome = Delegated em ec eo -> em = nullish (model d) incoming) /\
  (forall m, incoming = Some m ->
     exists em eo,
       outcome = Delegated (Some em) (adaptContext prompts ctx (target d)) eo /\
       em = match model d with Some dm => dm | None => m end).
Proof.
  cbv zeta. unfold wrapped.
  set (d := makeRoutingDecision _ _ _ _ _ _).
  split.
  - intros em ec eo.
    destruct (nullish (model d) incoming) as [e|] eqn:Ee; [|discriminate].
    destruct incoming as [m|]; [|discriminate].
    destruct (negb _); [destruct (resolve_key _ _ _ _) as [[key|] st']|];
      cbn [fst]; intros H; injection H as <- _ _; reflexivity.
  - intros m ->.
    destruct (model d) as [dm|] eqn:Ed; cbn [nullish];
      (destruct (negb _); [destruct (resolve_key _ _ _ _) as [[key|] st']|]);
      cbn [fst]; eauto.
Qed.

End DelegatedModel.

(** A decision without a model: the caller's model is passed on. *)
Lemma delegated_model_witness :
  let m := mkModel "anthropic" "claude-sonnet-4-5" in
  let ctx := user_context "What is 2 + 2?" in
  let d := makeRoutingDecision keyed_host ctx (wrapper_routerCfg orphan_wrapper)
             (wrapper_models orphan_wrapper) (params_cfg (wrapper_params orphan_wrapper))
             (Some (wrapper_agentDir orphan_wrapper)) in
  model d = None /\
  exists em eo,
    fst (wrapped no_keys keyed_host orphan_wrapper initial_prompts (Some m) ctx None
           initial_state)
    = Delegated (Some em) (adaptContext initial_prompts ctx (target d)) eo /\
    em = m.
Proof.
  cbv zeta. split; [vm_compute; reflexivity|].
  destruct (delegated_model no_keys keyed_host orphan_wrapper initial_prompts
              (Some (mkModel "anthropic" "claude-sonnet-4-5"))
              (user_context "What is 2 + 2?") None initial_state) as [_ H].
  destruct (H _ eq_refl) as (em & eo & H1 & H2).
  exists em, eo. split; [exact H1|]. rewrite H2. vm_compute. reflexivity.
Defined.

(** ** The identity preamble *)

(** C9, as written, fails: with no name the preamble is not the sentence
    "You are a helpful AI assistant." alone, and without a workspace
    directory that sentence is not even its opening. *)
Lemma identity_fallback_counterexample :
  read_file keyed_host "/ws" "IDENTITY.md" = None /\
  buildIdentityPreamble keyed_host (Some "/ws")
    = str "You are a helpful AI assistant. Never say you are Gemma, LLaMA, or any other model. You are only this assistant." /\
  buildIdentityPreamble keyed_host (Some "/ws") <> str "You are a helpful AI assistant." /\
  buildIdentityPreamble keyed_host None = str "You are a helpful assistant." /\
  buildIdentityPreamble keyed_host None <> str "You are a helpful AI assistant.".
Proof.
  repeat split; try (vm_compute; reflexivity); vm_compute; discriminate.
Qed.

(** C9, amended.  With a workspace directory and no agent name to
    extract (no identity file, or no Name line in it), the preamble opens
    with "You are a helpful AI assistant." and closes with the sentence
    that names "this assistant"; with no workspace directory the preamble
    is "You are a helpful assistant.". *)
Theorem identity_fallback host dir :
  dir <> "" ->
  (read_file host dir "IDENTITY.md" = None \/
   exists identity, read_file host dir "IDENTITY.md" = Some identity /\
                    match_label "Name" identity = None) ->
  (exists middle,
     buildIdentityPreamble host (Some dir)
     = join (str " ") ([FALLBACK_OPENING] ++ middle ++ [NEVER_SAY_THIS_ASSISTANT])) /\
  buildIdentityPreamble host None = str "You are a helpful assistant.".
Proof.
  intros Hdir Hname. split; [|reflexivity].
  unfold buildIdentityPreamble.
  destruct (String.eqb_spec dir ""); [contradiction|].
  assert (E : match read_file host dir "IDENTITY.md" with
              | Some content => option_map trim (match_label "Name" content)
              | None => None
              end = None).
  { destruct Hname as [->|(identity & -> & ->)]; reflexivity. }
  rewrite E. cbn [nonempty].
  change (str "Never say you are Gemma, LLaMA, or any other model. You are only "
          ++ str "this assistant" ++ str ".") with NEVER_SAY_THIS_ASSISTANT.
  change (str "You are a helpful AI assistant.") with FALLBACK_OPENING.
  match goal with
  | |- context [[FALLBACK_OPENING] ++ ?u ++ ?v ++ ?s ++ [NEVER_SAY_THIS_ASSISTANT]] =>
      exists (u ++ v ++ s)
  end.
  now rewrite <- !app_assoc.
Qed.

Lemma identity_fallback_witness :
  exists middle,
    buildIdentityPreamble user_only_host (Some "/ws")
    = join (str " ") ([FALLBACK_OPENING] ++ middle ++ [NEVER_SAY_THIS_ASSISTANT]).
Proof.
  refine (proj1 (identity_fallback user_only_host "/ws" _ _)).
  - discriminate.
  - left. reflexivity.
Defined.

(** ** The routes of the test suite *)

Example suite_force_local :
  List.map (suite_route "prefer-local")
    ["read the file /etc/hosts"; "list the files in /tmp"; "run command ls -la"; "yes"]
  = [("local", "force-local"); ("local", "tool-prefer-local"); ("local", "force-local");
     ("local", "force-local")].
Proof. vm_compute. reflexivity. Qed.

Example suite_simple_text :
  List.map (suite_route "prefer-local")
    ["Who are you?"; "What is 2 + 2?"; "What is a closure?"; ""; "hello"]
  = [("local-text", "simple+text"); ("local-text", "simple+text");
     ("local-text", "simple+text"); ("local-text", "simple+text");
     ("local-text", "simple+text")].
Proof. vm_compute. reflexivity. Qed.

Example suite_cloud :
  List.map (suite_route "prefer-local")
    ["Explain in detail how the event loop works";
     "Refactor this component to use hooks";
     "What is the current price of Bitcoin?";
     "Look up the weather forecast";
     "read the file and explain in detail what it does"]
  = [("cloud", "force-cloud"); ("cloud", "force-cloud"); ("cloud", "cloud-capability");
     ("cloud", "cloud-capability"); ("cloud", "force-cloud")].
Proof. vm_compute. reflexivity. Qed.

Example suite_preferences :
  suite_route "local-only" "What is the price of Bitcoin?" = ("local", "pref:local-only") /\
  suite_route "cloud-only" "yes" = ("cloud", "pref:cloud-only") /\
  suite_route "prefer-cloud" "What is 2+2?" = ("cloud", "simple+prefer-cloud") /\
  suite_route "prefer-local" "What is 2+2?" = ("local-text", "simple+text").
Proof. repeat split; vm_compute; reflexivity. Qed.

Example suite_local_post_tool :
  let d := makeRoutingDecision keyed_host (post_tool_context "ollama")
             (readme_router "prefer-local") suite_models empty_config None in
  (target d, reason d) = ("local", "post-tool-turn").
Proof. vm_compute. reflexivity. Qed.

(* ====================================================================== *)
(** * Further properties *)
(* ====================================================================== *)

(** ** The classifier *)

Lemma first_match_none_iff patterns t :
  first_match patterns t = None <-> no_match patterns t.
Proof.
  unfold no_match. induction patterns as [|[p|] patterns IH]; simpl.
  - split; [intros _ rx [] | reflexivity].
  - destruct (rx_test p t) eqn:Ep.
    + split; [discriminate|]. intros H. specialize (H p (or_introl eq_refl)). congruence.
    + rewrite IH. split; intros H rx.
      * intros [E|Hin]; [injection E as <-; exact Ep | auto].
      * intros Hin. apply H. now right.
  - rewrite IH. split; intros H rx.
    + intros [E|Hin]; [discriminate | auto].
    + intros Hin. apply H. now right.
Qed.

Lemma first_match_some_iff patterns t :
  (exists rx, first_match patterns t = Some rx) <->
  (exists rx, In (Some rx) patterns /\ rx_test rx t = true).
Proof.
  split.
  - intros [rx E]. destruct (first_match patterns t) as [rx'|] eqn:E'; [|discriminate].
    clear E. induction patterns as [|[p|] patterns IH]; simpl in E'; [discriminate| |].
    + destruct (rx_test p t) eqn:Ep.
      * exists p. split; [now left | exact Ep].
      * destruct (IH E') as (r & Hin & Hr). exists r. split; [now right | exact Hr].
    + destruct (IH E') as (r & Hin & Hr). exists r. split; [now right | exact Hr].
  - intros (rx & Hin & Ht). destruct (first_match_some _ _ _ Hin Ht) as (rx' & E & _).
    eauto.
Qed.

(** X1.  The reason of the classifier says which shortcut applied:
    "force-cloud" exactly when a force-cloud pattern matches the last user
    text (the score is then 1), "force-local" exactly when none does and a
    force-local pattern matches, "post-tool-turn" exactly when no pattern
    matches and the last message is a tool result (the score is 0 in both
    cases), and "heuristic" otherwise. *)
Theorem classify_reason_iff ctx routingCfg :
  let msgs := context_messages ctx in
  let t := lastUserText msgs in
  let c := classifyComplexity ctx routingCfg in
  let cloud_match := exists rx, In (Some rx) (forceCloudPatterns routingCfg) /\ rx_test rx t = true in
  let local_match := exists rx, In (Some rx) (forceLocalPatterns routingCfg) /\ rx_test rx t = true in
  (cx_reason c = "force-cloud" <-> cloud_match) /\
  (cx_reason c = "force-local" <-> ~ cloud_match /\ local_match) /\
  (cx_reason c = "post-tool-turn" <->
     ~ cloud_match /\ ~ local_match /\ isPostToolTurn msgs = true) /\
  (cx_reason c = "heuristic" <->
     ~ cloud_match /\ ~ local_match /\ isPostToolTurn msgs = false) /\
  (cx_reason c = "force-cloud" -> cx_score c = 1%float) /\
  (cx_reason c = "force-local" \/ cx_reason c = "post-tool-turn" -> cx_score c = 0%float).
Proof.
  cbv zeta. rewrite <- !first_match_some_iff. unfold classifyComplexity.
  destruct (first_match (forceCloudPatterns routingCfg) _) as [rc|] eqn:Ec.
  { assert (HA : exists rx, Some rc = Some rx) by eauto.
    cbn [cx_reason cx_score]. intuition discriminate. }
  assert (HA : ~ exists rx : RegExp, @None RegExp = Some rx) by (intros [rx H]; discriminate).
  destruct (first_match (forceLocalPatterns routingCfg) _) as [rl|] eqn:El.
  { assert (HB : exists rx, Some rl = Some rx) by eauto.
    cbn [cx_reason cx_score]. intuition discriminate. }
  destruct (isPostToolTurn _) eqn:Ep; cbn [cx_reason cx_score]; intuition discriminate.
Qed.

(** X2.  The first pattern of the force-cloud list that matches decides
    the tag: null entries and patterns that do not match are passed over,
    whatever follows the match in the list. *)
Theorem first_force_cloud_pattern_wins ctx routingCfg before rx after :
  let t := lastUserText (context_messages ctx) in
  forceCloudPatterns routingCfg = before ++ Some rx :: after ->
  no_match before t ->
  rx_test rx t = true ->
  classifyComplexity ctx routingCfg = mkComplexity 1 "force-cloud" [source rx].
Proof.
  cbv zeta. intros Hlist Hbefore Hrx. unfold classifyComplexity. rewrite Hlist.
  assert (E : first_match (before ++ Some rx :: after)
                (lastUserText (context_messages ctx)) = Some rx).
  { clear Hlist. induction before as [|[p|] before IH]; simpl.
    - now rewrite Hrx.
    - rewrite (Hbefore p (or_introl eq_refl)). apply IH.
      intros r Hin. apply Hbefore. now right.
    - apply IH. intros r Hin. apply Hbefore. now right. }
  now rewrite E.
Qed.

Lemma first_force_cloud_pattern_wins_witness :
  classifyComplexity (user_context "Refactor this component and explain in detail")
    (mkRoutingCfg 0.5 true 500
       [None; Some rx_implement_feature; Some rx_refactor; Some rx_explain_in_detail] [])
  = mkComplexity 1 "force-cloud" ["refactor"].
Proof.
  apply (first_force_cloud_pattern_wins
           (user_context "Refactor this component and explain in detail")
           (mkRoutingCfg 0.5 true 500
              [None; Some rx_implement_feature; Some rx_refactor; Some rx_explain_in_detail] [])
           [None; Some rx_implement_feature] rx_refactor [Some rx_explain_in_detail]).
  - reflexivity.
  - intros r [E|[E|[]]]; [discriminate|]. injection E as <-. vm_compute. reflexivity.
  - vm_compute. reflexivity.
Defined.
(** ** The decision engine *)

Lemma decision_model_cases host ctx routerCfg models cfg agentDir :
  let d := makeRoutingDecision host ctx routerCfg models cfg agentDir in
  model d = local models \/
  model d = nullish (localText models) (local models) \/
  (model d = cloud models /\ is_some (cloud models) = true).
Proof.
  cbv zeta. unfold makeRoutingDecision, complex_route, simple_route, cloudAvailable.
  destruct (cloud models) as [mc|]; destruct (localText models) as [mt|];
    cbn [is_some nullish andb]; rewrite ?andb_false_r;
    split_ifs; cbn [model]; auto.
Qed.

(** X3.  Every decision has one of the three targets, and its model is
    the model of that target: the local model for "local", the local text
    model or else the local model for "local-text", and the cloud model for
    "cloud"; "cloud" is answered only when the cloud is available and the
    preference is not "local-only". *)
Theorem decision_target_and_model host ctx routerCfg models cfg agentDir :
  let d := makeRoutingDecision host ctx routerCfg models cfg agentDir in
  (target d = "local" /\ model d = local models) \/
  (target d = "local-text" /\ model d = nullish (localText models) (local models)) \/
  (target d = "cloud" /\ model d = cloud models /\
   cloudAvailable host routerCfg models cfg agentDir = true /\
   preference routerCfg <> "local-only").
Proof.
  cbv zeta. unfold makeRoutingDecision, complex_route, simple_route.
  destruct (String.eqb_spec (preference routerCfg) "local-only") as [Hlo|Hlo];
    [left; split; reflexivity|].
  destruct (cloudAvailable host routerCfg models cfg agentDir) eqn:Hav;
    destruct (localText models) as [mt|] eqn:Htext;
    rewrite ?andb_false_r, ?andb_true_r; cbn [is_some nullish andb];
    split_ifs; cbn [target model];
    first [ left; split; reflexivity
          | right; left; split; reflexivity
          | right; right; repeat split; assumption ].
Qed.

(** X4.  When the local model is resolved, no decision has a null model. *)
Theorem decision_model_resolved host ctx routerCfg models cfg agentDir :
  is_some (local models) = true ->
  is_some (model (makeRoutingDecision host ctx routerCfg models cfg agentDir)) = true.
Proof.
  intros Hlocal.
  destruct (decision_model_cases host ctx routerCfg models cfg agentDir)
    as [->|[->|[-> Hcloud]]].
  - exact Hlocal.
  - destruct (localText models); [reflexivity | exact Hlocal].
  - exact Hcloud.
Qed.

Lemma decision_model_resolved_witness :
  is_some (model (makeRoutingDecision keyed_host
                    (user_context "What is the current price of Bitcoin?")
                    (readme_router "prefer-local") suite_models empty_config None)) = true.
Proof.
  apply (decision_model_resolved keyed_host _ (readme_router "prefer-local")
           suite_models empty_config None).
  reflexivity.
Defined.

(** X5.  When a force-local pattern matches the last user text, no
    force-cloud pattern matches it and the preference is not "cloud-only",
    the target is "local", the model is the local model and the score is
    0. *)
Theorem force_local_routes_local host ctx routerCfg models cfg agentDir rx :
  let t := lastUserText (context_messages ctx) in
  let d := makeRoutingDecision host ctx routerCfg models cfg agentDir in
  no_match (forceCloudPatterns (routing routerCfg)) t ->
  In (Some rx) (forceLocalPatterns (routing routerCfg)) -> rx_test rx t = true ->
  preference routerCfg <> "cloud-only" ->
  target d = "local" /\ model d = local models /\ score d = 0%float /\
  (reason d = "force-local" \/ reason d = "pref:local-only").
Proof.
  cbv zeta. intros Hnone%first_match_none_iff Hin Ht Hpref.
  unfold makeRoutingDecision, classifyComplexity.
  rewrite Hnone.
  destruct (first_match_some _ _ _ Hin Ht) as (rx' & -> & _).
  cbn [cx_score cx_reason cx_tags].
  destruct (String.eqb (preference routerCfg) "local-only"); [auto 10|].
  destruct (String.eqb_spec (preference routerCfg) "cloud-only"); [contradiction|].
  cbn. auto 10.
Qed.

Lemma force_local_routes_local_witness :
  let d := makeRoutingDecision keyed_host (user_context "read the file src/index.ts")
             (readme_router "prefer-local") suite_models empty_config None in
  target d = "local" /\ model d = local suite_models /\ score d = 0%float /\
  (reason d = "force-local" \/ reason d = "pref:local-only").
Proof.
  apply (force_local_routes_local keyed_host (user_context "read the file src/index.ts")
           (readme_router "prefer-local") suite_models empty_config None rx_read_file).
  - intros rc [E|[E|[E|[E|[]]]]]; injection E as <-; vm_compute; reflexivity.
  - now left.
  - vm_compute. reflexivity.
  - discriminate.
Defined.

(** ** The tags of the heuristic *)

Lemma score_keywords_tags t table : forall a,
  acc_tags (score_keywords t table a) = acc_tags a ++ List.map tag (matching t table).
Proof.
  unfold score_keywords, matching.
  induction table as [|kw table IH]; intros a; simpl; [now rewrite app_nil_r|].
  rewrite IH. destruct (test true (re kw) t); simpl; [|reflexivity].
  now rewrite <- app_assoc.
Qed.

Lemma complex_tags_counted t :
  List.filter is_complex_tag (List.map tag (matching t COMPLEX_KEYWORDS))
  = List.map tag (matching t COMPLEX_KEYWORDS).
Proof.
  unfold matching.
  assert (H : forallb (fun kw => is_complex_tag (tag kw)) COMPLEX_KEYWORDS = true)
    by (vm_compute; reflexivity).
  induction COMPLEX_KEYWORDS as [|kw table IH]; simpl in *; [reflexivity|].
  apply andb_true_iff in H as [Hkw H].
  destruct (test true (re kw) t); simpl; [rewrite Hkw; f_equal|]; now apply IH.
Qed.

Lemma simple_tags_not_counted t :
  List.filter is_complex_tag (List.map tag (matching t SIMPLE_KEYWORDS)) = [].
Proof.
  unfold matching.
  assert (H : forallb (fun kw => negb (is_complex_tag (tag kw))) SIMPLE_KEYWORDS = true)
    by (vm_compute; reflexivity).
  induction SIMPLE_KEYWORDS as [|kw table IH]; simpl in *; [reflexivity|].
  apply andb_true_iff in H as [Hkw H]. apply negb_true_iff in Hkw.
  destruct (test true (re kw) t); simpl; [rewrite Hkw|]; now apply IH.
Qed.

(** The tags of the heuristic, in the order in which they are pushed; the
    count of complexity tags is the number of complex families that
    match. *)
Lemma heuristic_tags msgs t :
  let words := List.length (split_ws t) in
  let n := List.length (matching t COMPLEX_KEYWORDS) in
  acc_tags (heuristic msgs t) =
    (if Nat.ltb 100 words then ["long-prompt"] else [])
    ++ (if Nat.ltb 300 words then ["very-long-prompt"] else [])
    ++ List.map tag (matching t COMPLEX_KEYWORDS)
    ++ List.map tag (matching t SIMPLE_KEYWORDS)
    ++ (if Nat.leb 2 n then ["multi-signal"] else [])
    ++ (if Nat.ltb 12 words && Nat.leb 1 n then ["detailed-query"] else [])
    ++ (if Nat.ltb 3 (recentToolCallCount msgs) then ["tool-heavy-ctx"] else []).
Proof.
  cbv zeta. unfold heuristic.
  set (a2 := bump _ _ "very-long-prompt" _).
  assert (E2 : acc_tags a2 =
                 (if Nat.ltb 100 (List.length (split_ws t)) then ["long-prompt"] else [])
                 ++ (if Nat.ltb 300 (List.length (split_ws t)) then ["very-long-prompt"] else [])).
  { subst a2. destruct (Nat.ltb 100 _), (Nat.ltb 300 _); reflexivity. }
  set (a4 := score_keywords t SIMPLE_KEYWORDS (score_keywords t COMPLEX_KEYWORDS a2)).
  assert (E4 : acc_tags a4 = acc_tags a2 ++ List.map tag (matching t COMPLEX_KEYWORDS)
                             ++ List.map tag (matching t SIMPLE_KEYWORDS)).
  { subst a4. now rewrite !score_keywords_tags, <- app_assoc. }
  assert (En : List.length (List.filter is_complex_tag (acc_tags a4))
               = List.length (matching t COMPLEX_KEYWORDS)).
  { rewrite E4, E2, !List.filter_app, complex_tags_counted, simple_tags_not_counted.
    rewrite app_nil_r, List.length_app, List.length_map.
    destruct (Nat.ltb 100 _), (Nat.ltb 300 _); reflexivity. }
  rewrite En.
  destruct (Nat.leb 2 _), (Nat.ltb 12 _ && Nat.leb 1 _), (Nat.ltb 3 _);
    cbn [bump acc_tags]; rewrite E4, E2, <- ?app_assoc, ?app_nil_r; reflexivity.
Qed.

Lemma keyword_tags_distinct :
  NoDup (List.map tag (COMPLEX_KEYWORDS ++ SIMPLE_KEYWORDS)
         ++ ["long-prompt"; "very-long-prompt"; "multi-signal"; "detailed-query";
             "tool-heavy-ctx"]).
Proof. apply (bool_decide_unpack _). vm_compute. exact I. Qed.

Lemma in_matching_tags t table x :
  In x (List.map tag (matching t table)) <->
  exists kw, In kw table /\ test true (re kw) t = true /\ tag kw = x.
Proof.
  unfold matching. rewrite in_map_iff. split.
  - intros (kw & <- & [Hin Ht]%filter_In). eauto.
  - intros (kw & Hin & Ht & <-). exists kw. split; [reflexivity|].
    apply filter_In. auto.
Qed.

Lemma NoDup_map_injective {A B : Type} (f : A -> B) l x y :
  NoDup (List.map f l) -> In x l -> In y l -> f x = f y -> x = y.
Proof.
  induction l as [|a l IH]; simpl; [tauto|].
  intros [Ha Hnd]%NoDup_cons. rewrite list_elem_of_In in Ha.
  intros [->|Hx] [->|Hy] E; try reflexivity.
  - exfalso. apply Ha. rewrite E. now apply in_map.
  - exfalso. apply Ha. rewrite <- E. now apply in_map.
  - now apply IH.
Qed.

Lemma keyword_tags_injective kw kw' :
  In kw (COMPLEX_KEYWORDS ++ SIMPLE_KEYWORDS) ->
  In kw' (COMPLEX_KEYWORDS ++ SIMPLE_KEYWORDS) ->
  tag kw = tag kw' -> kw = kw'.
Proof.
  apply NoDup_map_injective.
  pose proof keyword_tags_distinct as H. now apply NoDup_app in H as [H _].
Qed.

Lemma keyword_tag_not_special kw :
  In kw (COMPLEX_KEYWORDS ++ SIMPLE_KEYWORDS) ->
  ~ In (tag kw) ["long-prompt"; "very-long-prompt"; "multi-signal"; "detailed-query";
                 "tool-heavy-ctx"].
Proof.
  intros Hin Hsp. pose proof keyword_tags_distinct as H.
  apply NoDup_app in H as (_ & H & _).
  apply (H (tag kw)); apply list_elem_of_In; [now apply in_map | exact Hsp].
Qed.

(** X6.  The tags of the heuristic say which keyword families matched:
    the tag of a family is among the tags exactly when its pattern matches
    the text, and "multi-signal" is among them exactly when two complex
    families or more match. *)
Theorem heuristic_tags_reflect_matches msgs t :
  (forall kw, In kw (COMPLEX_KEYWORDS ++ SIMPLE_KEYWORDS) ->
     (In (tag kw) (acc_tags (heuristic msgs t)) <-> test true (re kw) t = true)) /\
  (In "multi-signal" (acc_tags (heuristic msgs t)) <->
     2 <= List.length (matching t COMPLEX_KEYWORDS)).
Proof.
  rewrite heuristic_tags. cbv zeta. split.
  - intros kw Hkw. pose proof (keyword_tag_not_special kw Hkw) as Hsp.
    rewrite !in_app_iff, !in_matching_tags. split.
    + intros [H|[H|[H|[H|[H|[H|H]]]]]].
      * destruct (Nat.ltb 100 _); [|destruct H]. exfalso. apply Hsp. simpl in *. tauto.
      * destruct (Nat.ltb 300 _); [|destruct H]. exfalso. apply Hsp. simpl in *. tauto.
      * destruct H as (kw' & Hin & Ht & E).
        rewrite (keyword_tags_injective kw kw'); auto. apply in_or_app. now left.
      * destruct H as (kw' & Hin & Ht & E).
        rewrite (keyword_tags_injective kw kw'); auto. apply in_or_app. now right.
      * destruct (Nat.leb 2 _); [|destruct H]. exfalso. apply Hsp. simpl in *. tauto.
      * destruct (_ && _); [|destruct H]. exfalso. apply Hsp. simpl in *. tauto.
      * destruct (Nat.ltb 3 _); [|destruct H]. exfalso. apply Hsp. simpl in *. tauto.
    + intros Ht. apply in_app_or in Hkw as [Hin|Hin].
      * right. right. left. eauto.
      * right. right. right. left. eauto.
  - assert (Hno : forall table, incl table (COMPLEX_KEYWORDS ++ SIMPLE_KEYWORDS) ->
                    ~ In "multi-signal" (List.map tag (matching t table))).
    { intros table Hincl (kw & Hin & _ & E)%in_matching_tags.
      apply (keyword_tag_not_special kw); [now apply Hincl|]. rewrite E. simpl. tauto. }
    rewrite !in_app_iff. split.
    + intros [H|[H|[H|[H|[H|[H|H]]]]]].
      * destruct (Nat.ltb 100 _); simpl in H; intuition discriminate.
      * destruct (Nat.ltb 300 _); simpl in H; intuition discriminate.
      * exfalso. apply (Hno COMPLEX_KEYWORDS); [apply incl_appl, incl_refl | exact H].
      * exfalso. apply (Hno SIMPLE_KEYWORDS); [apply incl_appr, incl_refl | exact H].
      * destruct (Nat.leb 2 _) eqn:E; [now apply Nat.leb_le in E | destruct H].
      * destruct (_ && _); simpl in H; intuition discriminate.
      * destruct (Nat.ltb 3 _); simpl in H; intuition discriminate.
    + intros Hn. apply Nat.leb_le in Hn. rewrite Hn. do 4 right. left. now left.
Qed.

Lemma heuristic_tag_of_match msgs t kw :
  In kw COMPLEX_KEYWORDS -> test true (re kw) t = true ->
  In (tag kw) (acc_tags (heuristic msgs t)).
Proof.
  intros Hin Ht. rewrite heuristic_tags. cbv zeta.
  rewrite !in_app_iff, !in_matching_tags. right. right. left. eauto.
Qed.

(** X7.  A text that matches the pattern of a cloud-required family
    (search, recommendation, real-time, shopping) is routed to "cloud"
    with the cloud model whatever its score and the threshold are, when no
    force-local pattern matches it, the last message is no tool result,
    the cloud is available and the preference is not "local-only". *)
Theorem cloud_capability_routes_cloud host ctx routerCfg models cfg agentDir kw :
  let msgs := context_messages ctx in
  let t := lastUserText msgs in
  let d := makeRoutingDecision host ctx routerCfg models cfg agentDir in
  In kw COMPLEX_KEYWORDS -> In (tag kw) CLOUD_REQUIRED_TAGS ->
  test true (re kw) t = true ->
  no_match (forceLocalPatterns (routing routerCfg)) t ->
  isPostToolTurn msgs = false ->
  cloudAvailable host routerCfg models cfg agentDir = true ->
  preference routerCfg <> "local-only" ->
  target d = "cloud" /\ model d = cloud models.
Proof.
  cbv zeta. intros Hkw Hreq Ht Hlocal%first_match_none_iff Hpost Hav Hpref.
  unfold makeRoutingDecision, classifyComplexity. rewrite Hav, Hlocal, Hpost.
  destruct (String.eqb_spec (preference routerCfg) "local-only"); [contradiction|].
  destruct (String.eqb (preference routerCfg) "cloud-only"); [now split|].
  destruct (first_match (forceCloudPatterns _) _); [now split|].
  cbn [cx_reason cx_tags cx_score String.eqb Ascii.eqb Bool.eqb orb negb].
  assert (Hn : needsCloud (acc_tags (heuristic (context_messages ctx)
                                       (lastUserText (context_messages ctx)))) = true).
  { unfold needsCloud. apply existsb_exists. exists (tag kw).
    split; [now apply heuristic_tag_of_match|].
    apply existsb_exists. exists (tag kw). split; [exact Hreq | apply String.eqb_refl]. }
  rewrite Hn. now split.
Qed.

Lemma cloud_capability_routes_cloud_witness :
  let d := makeRoutingDecision keyed_host
             (user_context "what are the latest headlines today?")
             (plain_router "prefer-local" 0.5) suite_models empty_config None in
  target d = "cloud" /\ model d = cloud suite_models.
Proof.
  apply (cloud_capability_routes_cloud keyed_host
           (user_context "what are the latest headlines today?")
           (plain_router "prefer-local" 0.5) suite_models empty_config None
           (mkKeyword (bounded [lit "latest"; lit "recent"; lit "current"; lit "today";
                                lit "news"; lit "price"]) 0.30 "real-time")).
  - do 10 right. left. reflexivity.
  - simpl. tauto.
  - vm_compute. reflexivity.
  - intros rx [].
  - reflexivity.
  - vm_compute. reflexivity.
  - discriminate.
Defined.

Lemma heuristic_tags_reflect_matches_witness :
  In "real-time" (acc_tags (heuristic [] (str "what are the latest headlines today?"))).
Proof.
  apply (proj1 (heuristic_tags_reflect_matches [] (str "what are the latest headlines today?"))
           (mkKeyword (bounded [lit "latest"; lit "recent"; lit "current"; lit "today";
                                lit "news"; lit "price"]) 0.30 "real-time")).
  - do 10 right. left. reflexivity.
  - vm_compute. reflexivity.
Defined.

(** ** Message helpers *)

Lemma lastUserText_down_skips rev_after rest :
  Forall (fun m => role m <> "user") rev_after ->
  lastUserText_down (rev_after ++ rest) = lastUserText_down rest.
Proof.
  induction 1 as [|m l Hm _ IH]; simpl; [reflexivity|].
  destruct (String.eqb_spec (role m) "user"); [contradiction | exact IH].
Qed.

(** X8.  The text that the classifier sees is the content of the most
    recent user message: the messages after it that are not from the user
    (assistant messages, tool results) are passed over, and so is
    everything before it. *)
Theorem lastUserText_most_recent before t p mn after :
  Forall (fun m => role m <> "user") after ->
  lastUserText (before ++ mkMessage "user" (CString t) p mn :: after) = t.
Proof.
  intros Hafter. unfold lastUserText.
  rewrite rev_app_distr. simpl. rewrite <- !app_assoc.
  rewrite lastUserText_down_skips; [reflexivity|].
  apply List.Forall_forall. intros m Hin. apply in_rev in Hin.
  rewrite List.Forall_forall in Hafter. now apply Hafter.
Qed.

Lemma lastUserText_most_recent_witness :
  lastUserText ([assistant_tool_call "ollama"; user_msg "old question"]
                ++ mkMessage "user" (CString (str "search for something")) None None
                   :: [assistant_tool_call "anthropic"; tool_result_msg "results"])
  = str "search for something".
Proof.
  apply (lastUserText_most_recent [assistant_tool_call "ollama"; user_msg "old question"]
           (str "search for something") None None
           [assistant_tool_call "anthropic"; tool_result_msg "results"]).
  repeat constructor; discriminate.
Defined.

(** X9.  A conversation without a user message is classified on the
    empty text; a user message whose content is neither a string nor an
    array counts as none. *)
Theorem lastUserText_without_user msgs :
  Forall (fun m => role m <> "user" \/ content m = COther) msgs ->
  lastUserText msgs = [].
Proof.
  intros H. unfold lastUserText.
  assert (Hrev : Forall (fun m => role m <> "user" \/ content m = COther) (rev msgs)).
  { apply List.Forall_forall. intros m Hin%in_rev. rewrite List.Forall_forall in H. now apply H. }
  induction Hrev as [|m l [Hm|Hm] _ IH]; simpl; [reflexivity| |].
  - destruct (String.eqb_spec (role m) "user"); [contradiction | exact IH].
  - rewrite Hm. now destruct (String.eqb (role m) "user").
Qed.

Lemma lastUserText_without_user_witness :
  lastUserText [assistant_tool_call "ollama"; tool_result_msg "data";
                mkMessage "user" COther None None] = [].
Proof.
  apply (lastUserText_without_user
           [assistant_tool_call "ollama"; tool_result_msg "data";
            mkMessage "user" COther None None]).
  repeat (apply List.Forall_cons; [first [left; discriminate | right; reflexivity]|]).
  apply List.Forall_nil.
Defined.

Lemma slice_last_app {A : Type} n (old recent : list A) :
  n <= List.length recent -> slice_last n (old ++ recent) = slice_last n recent.
Proof.
  intros Hn. unfold slice_last. rewrite List.length_app, skipn_app.
  rewrite skipn_all2 by lia. simpl. f_equal. lia.
Qed.

(** X10.  Only the last ten messages count towards the tool-heavy
    discount: what precedes them does not change the count. *)
Theorem recentToolCallCount_window old recent :
  10 <= List.length recent ->
  recentToolCallCount (old ++ recent) = recentToolCallCount recent.
Proof.
  intros H. unfold recentToolCallCount, recentToolCallCount_in.
  now rewrite slice_last_app.
Qed.

Lemma recentToolCallCount_window_witness :
  recentToolCallCount
    (repeat (assistant_tool_call "ollama") 7
     ++ repeat (tool_result_msg "ok") 8 ++ repeat (assistant_tool_call "ollama") 2)
  = recentToolCallCount
      (repeat (tool_result_msg "ok") 8 ++ repeat (assistant_tool_call "ollama") 2).
Proof.
  apply (recentToolCallCount_window (repeat (assistant_tool_call "ollama") 7)
           (repeat (tool_result_msg "ok") 8 ++ repeat (assistant_tool_call "ollama") 2)).
  simpl. lia.
Defined.

(** ** Credentials *)

Lemma is_value_iff o v : is_value o v = true <-> o = Some v.
Proof.
  destruct o as [s|]; simpl; [|split; discriminate].
  rewrite String.eqb_eq. split; [now intros -> | now intros [= ->]].
Qed.

(** X11.  The credential sources: a cloud model reference has a key
    exactly when a profile of the configuration whose key starts with the
    provider name has an API key or the mode "token", or such a profile of
    the agent's profile file has a token, an API key or the type "oauth",
    or the provider's variable of the environment table is set, or the
    provider is "anthropic" and ANTHROPIC_OAUTH_TOKEN is set.  Without a
    reference there is no key. *)
Theorem hasCloudApiKey_sources host r cfg agentDir :
  let p := ref_provider r in
  let dir := match agentDir with Some d => d | None => default_agent_dir host end in
  (hasCloudApiKey host (Some r) cfg agentDir = true <->
     (exists key profile,
        In (key, profile) (auth_profiles cfg) /\ String.prefix p key = true /\
        (truthy (ap_apiKey profile) = true \/ ap_mode profile = Some "token")) \/
     (exists profiles key profile,
        auth_profiles_file host dir = Some profiles /\ In (key, profile) profiles /\
        String.prefix p key = true /\
        (truthy (gp_token profile) = true \/ truthy (gp_apiKey profile) = true \/
         gp_type profile = Some "oauth")) \/
     (exists envVar, ENV_KEY_MAP !! p = Some envVar /\ truthy (env host !! envVar) = true) \/
     (p = "anthropic" /\ truthy (env host !! "ANTHROPIC_OAUTH_TOKEN") = true)) /\
  hasCloudApiKey host None cfg agentDir = false.
Proof.
  cbv zeta. split; [|reflexivity]. unfold hasCloudApiKey.
  destruct (existsb _ (auth_profiles cfg)) eqn:E1.
  { split; [intros _|reflexivity]. left.
    apply existsb_exists in E1 as ([key profile] & Hin & [Hp Hk]%andb_true_iff).
    exists key, profile. cbn [fst snd] in *. rewrite orb_true_iff, is_value_iff in Hk. auto. }
  destruct (existsb _ (match auth_profiles_file host _ with Some l => l | None => [] end))
    eqn:E2.
  { split; [intros _|reflexivity]. right. left.
    destruct (auth_profiles_file host _) as [profiles|]; [|discriminate].
    apply existsb_exists in E2 as ([key profile] & Hin & [Hp Hk]%andb_true_iff).
    exists profiles, key, profile. cbn [fst snd] in *.
    rewrite !orb_true_iff, is_value_iff in Hk. intuition. }
  assert (N1 : ~ exists key profile,
             In (key, profile) (auth_profiles cfg) /\
             String.prefix (ref_provider r) key = true /\
             (truthy (ap_apiKey profile) = true \/ ap_mode profile = Some "token")).
  { intros (key & profile & Hin & Hp & Hk).
    rewrite <- not_true_iff_false in E1. apply E1, existsb_exists.
    exists (key, profile). split; [exact Hin|]. cbn [fst snd]. rewrite Hp. cbn [andb].
    rewrite orb_true_iff, is_value_iff. auto. }
  assert (N2 : ~ exists profiles key profile,
             auth_profiles_file host
               (match agentDir with Some d => d | None => default_agent_dir host end)
               = Some profiles /\ In (key, profile) profiles /\
             String.prefix (ref_provider r) key = true /\
             (truthy (gp_token profile) = true \/ truthy (gp_apiKey profile) = true \/
              gp_type profile = Some "oauth")).
  { intros (profiles & key & profile & Hf & Hin & Hp & Hk).
    rewrite Hf in E2. rewrite <- not_true_iff_false in E2. apply E2, existsb_exists.
    exists (key, profile). split; [exact Hin|]. cbn [fst snd]. rewrite Hp. cbn [andb].
    rewrite !orb_true_iff, is_value_iff. intuition. }
  destruct (ENV_KEY_MAP !! ref_provider r) as [envVar|] eqn:E3.
  - destruct (truthy (env host !! envVar)) eqn:E4.
    + split; [intros _|reflexivity]. right. right. left. eauto.
    + rewrite andb_true_iff, String.eqb_eq. split.
      * intros [-> H]. auto.
      * intros [H|[H|[(v & [= <-] & H)|H]]]; [contradiction|contradiction|congruence|exact H].
  - rewrite andb_true_iff, String.eqb_eq. split.
    + intros [-> H]. auto.
    + intros [H|[H|[(v & Hv & H)|H]]]; [contradiction|contradiction|discriminate|exact H].
Qed.

Lemma hasCloudApiKey_sources_witness :
  hasCloudApiKey keyed_host (Some (mkModelRef "anthropic" "claude-sonnet-4-5"))
    empty_config None = true /\
  hasCloudApiKey keyed_host (Some (mkModelRef "nonexistent" "x")) empty_config None = false.
Proof.
  split.
  - apply (proj1 (hasCloudApiKey_sources keyed_host
                    (mkModelRef "anthropic" "claude-sonnet-4-5") empty_config None)).
    right. right. left. exists "ANTHROPIC_API_KEY". split; vm_compute; reflexivity.
  - apply not_true_iff_false. intros H.
    apply (proj1 (hasCloudApiKey_sources keyed_host
                    (mkModelRef "nonexistent" "x") empty_config None)) in H.
    destruct H as [(key & profile & [] & _)|[(profiles & key & profile & Hf & _)|
                   [(v & Hv & _)|[Hp _]]]]; [discriminate Hf|..].
    + vm_compute in Hv. discriminate.
    + discriminate.
Defined.

(** ** Tool simplification *)

Lemma simplify_from_keys_distinct tools : forall seen,
  NoDup (List.map tool_key (simplify_from seen tools)).
Proof.
  induction tools as [|tool rest IH]; intros seen; cbn [simplify_from];
    [constructor|].
  destruct (schema_lookup (tool_key tool)) as [[d p]|] eqn:E, tool as [t|];
    try apply IH.
  case_bool_decide as Hseen; [apply IH|].
  cbn [List.map]. apply NoDup_cons. split; [|apply IH].
  rewrite list_elem_of_In, in_map_iff. intros (x & Hk & Hin).
  apply simplify_from_fresh in Hin.
  change (tool_key (Some (with_schema t d p))) with (tool_key (Some t)) in Hk.
  rewrite Hk in Hin. apply Hin. rewrite elem_of_union, elem_of_singleton. now left.
Qed.

Lemma simplify_from_origin tools : forall seen x,
  In x (simplify_from seen tools) ->
  exists t d p, In (Some t) tools /\ schema_lookup (tool_key (Some t)) = Some (d, p) /\
                x = Some (with_schema t d p).
Proof.
  induction tools as [|tool rest IH]; intros seen x; cbn [simplify_from]; [intros []|].
  assert (Hrest : forall seen', In x (simplify_from seen' rest) ->
            exists t d p, In (Some t) (tool :: rest) /\
                          schema_lookup (tool_key (Some t)) = Some (d, p) /\
                          x = Some (with_schema t d p)).
  { intros seen' Hin. destruct (IH _ _ Hin) as (t & d & p & H1 & H2 & H3).
    exists t, d, p. split; [now right | auto]. }
  destruct (schema_lookup (tool_key tool)) as [[d p]|] eqn:E, tool as [t|];
    try apply Hrest.
  case_bool_decide as Hseen; [apply Hrest|].
  intros [<-|Hin]; [|now apply (Hrest _ Hin)].
  exists t, d, p. split; [now left | auto].
Qed.

(** X12.  The simplified tools have pairwise different names, and each
    one is a tool of the input whose name is in the table, with the
    description, parameters and input schema of the table and every other
    property as it was: no name is made up, and [execute] is kept. *)
Theorem simplified_tools_from_input tools :
  let simplified := simplifyToolsForLocalModel tools in
  NoDup (List.map tool_key simplified) /\
  forall x, In x simplified ->
    exists t description parameters,
      In (Some t) tools /\
      schema_lookup (tool_key (Some t)) = Some (description, parameters) /\
      x = Some (mkTool (tool_name t) (tool_function_name t) (Some description)
                  (Some parameters) (Some parameters) (tool_rest t)).
Proof.
  cbv zeta. rewrite simplifyTools_unfold. split.
  - apply simplify_from_keys_distinct.
  - intros x Hin. exact (simplify_from_origin _ _ _ Hin).
Qed.

Lemma simplify_from_first before : forall seen t after d p,
  schema_lookup (tool_key (Some t)) = Some (d, p) ->
  tool_key (Some t) ∉ seen ->
  Forall (fun tool => tool_key tool <> tool_key (Some t)) before ->
  In (Some (with_schema t d p)) (simplify_from seen (before ++ Some t :: after)).
Proof.
  induction before as [|tool before IH]; intros seen t after d p Hk Hseen Hbefore;
    cbn [app simplify_from].
  - rewrite Hk. rewrite bool_decide_eq_false_2 by exact Hseen. now left.
  - apply List.Forall_cons_iff in Hbefore as [Htool Hbefore].
    destruct (schema_lookup (tool_key tool)) as [[d' p']|] eqn:E, tool as [t'|];
      try (now apply IH).
    case_bool_decide as Hs; [now apply IH|].
    right. apply IH; try assumption.
    rewrite elem_of_union, elem_of_singleton. intros [H|H]; [|contradiction].
    apply Htool. now symmetry.
Qed.

(** X13.  Of the tools of one name the first is the one kept: a tool
    whose name is in the table and that no tool of that name precedes is in
    the result with the table's schema, whatever follows it. *)
Theorem simplified_tools_keep_first before t after description parameters :
  schema_lookup (tool_key (Some t)) = Some (description, parameters) ->
  Forall (fun tool => tool_key tool <> tool_key (Some t)) before ->
  In (Some (with_schema t description parameters))
     (simplifyToolsForLocalModel (before ++ Some t :: after)).
Proof.
  intros Hk Hbefore. rewrite simplifyTools_unfold.
  apply simplify_from_first; [assumption | | assumption].
  apply not_elem_of_empty.
Qed.

Lemma simplified_tools_keep_first_witness :
  let read1 := mkTool (Some "read") None (Some (JHost 1)) (Some (JHost 2)) None
                 [("execute", JHost 3)] in
  let read2 := mkTool (Some "read") None None None None [("execute", JHost 4)] in
  In (Some (with_schema read1 (JString "Read a file.")
              (JSchema [("path", "string", "File path to read")] ["path"])))
     (simplifyToolsForLocalModel
        ([None; Some (mkTool (Some "browser") None None None None [])]
         ++ Some read1 :: [Some read2])).
Proof.
  cbv zeta.
  apply (simplified_tools_keep_first
           [None; Some (mkTool (Some "browser") None None None None [])]
           (mkTool (Some "read") None (Some (JHost 1)) (Some (JHost 2)) None
              [("execute", JHost 3)])
           [Some (mkTool (Some "read") None None None None [("execute", JHost 4)])]).
  - vm_compute. reflexivity.
  - repeat (apply List.Forall_cons; [discriminate|]). apply List.Forall_nil.
Defined.

Lemma schema_lookup_names name v :
  schema_lookup name = Some v ->
  In name ["read"; "exec"; "write"; "edit"] \/ In name OBJECT_PROTOTYPE_KEYS.
Proof.
  unfold schema_lookup.
  destruct (SIMPLIFIED_TOOL_SCHEMAS !! name) as [s|] eqn:E.
  - intros _. left. unfold SIMPLIFIED_TOOL_SCHEMAS in E.
    apply elem_of_list_to_map_2 in E. apply list_elem_of_In in E.
    simpl in E. simpl.
    repeat destruct E as [E|E]; try (injection E as <- _; tauto). destruct E.
  - destruct (existsb _ _) eqn:Ex; [|discriminate]. intros _. right.
    apply existsb_exists in Ex as (k & Hin & ->%String.eqb_eq). exact Hin.
Qed.

(** X14.  At most four tools are kept when no tool of the input is named
    like a property of [Object.prototype], and at most sixteen in any
    case. *)
Theorem simplified_tools_bound tools :
  List.length (simplifyToolsForLocalModel tools) <= 16 /\
  (Forall (fun tool => ~ In (tool_key tool) OBJECT_PROTOTYPE_KEYS) tools ->
   List.length (simplifyToolsForLocalModel tools) <= 4).
Proof.
  assert (Hnd := simplify_from_keys_distinct tools ∅).
  assert (Horigin := simplify_from_origin tools ∅).
  rewrite simplifyTools_unfold.
  apply NoDup_ListNoDup in Hnd. split.
  - rewrite <- (List.length_map tool_key).
    apply (NoDup_incl_length (l' := ["read"; "exec"; "write"; "edit"] ++ OBJECT_PROTOTYPE_KEYS) Hnd).
    intros k (x & <- & Hin)%in_map_iff.
    destruct (Horigin x Hin) as (t & d & p & _ & Hk & ->).
    apply in_or_app. exact (schema_lookup_names _ _ Hk).
  - intros Hproto. rewrite <- (List.length_map tool_key).
    apply (NoDup_incl_length (l' := ["read"; "exec"; "write"; "edit"]) Hnd).
    intros k (x & <- & Hin)%in_map_iff.
    destruct (Horigin x Hin) as (t & d & p & Ht & Hk & ->).
    destruct (schema_lookup_names _ _ Hk) as [H|H]; [exact H|].
    rewrite List.Forall_forall in Hproto. destruct (Hproto _ Ht H).
Qed.

Lemma simplified_tools_bound_witness :
  List.length (simplifyToolsForLocalModel
    (List.map (fun n => Some (mkTool (Some n) None None None None []))
       ["read"; "exec"; "write"; "edit"; "browser"; "read"; "process"])) <= 4.
Proof.
  apply (proj2 (simplified_tools_bound
    (List.map (fun n => Some (mkTool (Some n) None None None None []))
       ["read"; "exec"; "write"; "edit"; "browser"; "read"; "process"]))).
  repeat (apply List.Forall_cons; [vm_compute; intuition discriminate|]).
  apply List.Forall_nil.
Defined.

(** ** The wrapped stream function and its credential cache *)

Ltac case_provider :=
  match goal with
  | |- context [String.eqb (model_provider ?a) (model_provider ?b)] =>
      destruct (String.eqb_spec (model_provider a) (model_provider b)); [contradiction|]
  end.

Section WrappedCalls.

Variable resolveApiKeyForProvider : string -> OpenClawConfig -> string -> KeyOutcome.

(** X15.  A call without a model from the caller never reaches
    [streamFn]: it is rejected, and the key cache and the keys handed to
    the auth storage are as before. *)
Theorem wrapped_null_model_rejected host wr prompts ctx options st :
  let r := wrapped resolveApiKeyForProvider host wr prompts None ctx options st in
  fst r = Rejected "TypeError" /\
  resolvedProviderKeys (snd r) = resolvedProviderKeys st /\
  runtimeApiKeys (snd r) = runtimeApiKeys st.
Proof.
  cbv zeta. unfold wrapped.
  destruct (nullish (model _) None); cbn; auto.
Qed.



(** X18.  When the provider differs, its key is not in the cache and the
    resolver answers with a key, the options carry that key, the key is
    cached, and it is handed to the auth storage when there is one. *)
Theorem wrapped_resolves_and_caches host wr prompts m ctx options st key src :
  let d := wrapper_decision host wr ctx in
  let em := or_else (model d) m in
  let r := wrapped resolveApiKeyForProvider host wr prompts (Some m) ctx options st in
  model_provider em <> model_provider m ->
  cached_key (model_provider em) st = None ->
  resolveApiKeyForProvider (model_provider em) (params_cfg (wrapper_params wr))
    (wrapper_agentDir wr) = KeyInfo (Some key) src ->
  key <> "" ->
  fst r = Delegated (Some em) (adaptContext prompts ctx (target d))
            (Some (with_apiKey options key)) /\
  cached_key (model_provider em) (snd r) = Some key /\
  runtimeApiKeys (snd r) =
    (if params_authStorage (wrapper_params wr)
     then runtimeApiKeys st ++ [(model_provider em, key)] else runtimeApiKeys st).
Proof.
  cbv zeta. unfold wrapper_decision, route_line. intros Hdiff Hnone Hres Hkey.
  unfold wrapped.
  destruct (model (makeRoutingDecision _ _ _ _ _ _)) as [dm|]; cbn [nullish or_else] in *;
    case_provider;
    cbn [negb]; unfold resolve_key;
    change (cached_key ?p (write_log ?e st)) with (cached_key p st);
    rewrite Hnone, Hres;
    (destruct (String.eqb_spec key ""); [contradiction|]);
    cbn [fst snd]; unfold cached_key; cbn [resolvedProviderKeys runtimeApiKeys write_log];
    rewrite lookup_insert_eq;
    (destruct (String.eqb_spec key ""); [contradiction|]); auto.
Qed.

(** X19.  When the resolver finds no key or throws, the call is still
    made, with the caller's options, and nothing is cached. *)
Theorem wrapped_forwards_options_without_key host wr prompts m ctx options st :
  let d := wrapper_decision host wr ctx in
  let em := or_else (model d) m in
  let r := wrapped resolveApiKeyForProvider host wr prompts (Some m) ctx options st in
  model_provider em <> model_provider m ->
  cached_key (model_provider em) st = None ->
  (forall key src,
     resolveApiKeyForProvider (model_provider em) (params_cfg (wrapper_params wr))
       (wrapper_agentDir wr) = KeyInfo (Some key) src -> key = "") ->
  fst r = Delegated (Some em) (adaptContext prompts ctx (target d)) options /\
  resolvedProviderKeys (snd r) = resolvedProviderKeys st /\
  runtimeApiKeys (snd r) = runtimeApiKeys st.
Proof.
  cbv zeta. unfold wrapper_decision, route_line. intros Hdiff Hnone Hres.
  unfold wrapped.
  destruct (model (makeRoutingDecision _ _ _ _ _ _)) as [dm|]; cbn [nullish or_else] in *;
    case_provider;
    cbn [negb]; unfold resolve_key;
    change (cached_key ?p (write_log ?e st)) with (cached_key p st);
    rewrite Hnone;
    (destruct (resolveApiKeyForProvider _ _ _) as [[key|] src| |msg] eqn:E;
     [rewrite (Hres key src eq_refl); cbn | cbn | cbn | cbn]); auto.
Qed.

(** X20.  The cache only grows: a key that is cached before a call is
    cached after it, whatever the call does. *)
Theorem wrapped_keeps_cached_keys host wr prompts incoming ctx options st p key :
  cached_key p st = Some key ->
  cached_key p (snd (wrapped resolveApiKeyForProvider host wr prompts incoming ctx
                       options st)) = Some key.
Proof.
  intros Hkey. unfold wrapped.
  destruct (nullish (model _) incoming) as [em|]; [|exact Hkey].
  destruct incoming as [m|]; [|exact Hkey].
  destruct (negb _); [|exact Hkey].
  unfold resolve_key.
  change (cached_key ?q (write_log ?e st)) with (cached_key q st).
  destruct (cached_key (model_provider em) st) as [k|] eqn:Ek; [exact Hkey|].
  destruct (resolveApiKeyForProvider _ _ _) as [[k|] src| |msg]; try exact Hkey.
  destruct (String.eqb k ""); [exact Hkey|].
  cbn [snd]. unfold cached_key in *. cbn [resolvedProviderKeys write_log].
  destruct (decide (model_provider em = p)) as [E|Hne].
  - rewrite E in Ek. congruence.
  - now rewrite lookup_insert_ne.
Qed.

End WrappedCalls.



Lemma wrapped_resolves_and_caches_witness :
  let d := wrapper_decision keyed_host suite_wrapper detailed_context in
  let r := wrapped env_keys keyed_host suite_wrapper initial_prompts (Some local_caller)
             detailed_context None initial_state in
  cached_key "anthropic" initial_state = None /\
  fst r = Delegated (Some (or_else (model d) local_caller))
            (adaptContext initial_prompts detailed_context (target d))
            (Some (with_apiKey None "sk-ant-test")) /\
  cached_key "anthropic" (snd r) = Some "sk-ant-test" /\
  runtimeApiKeys (snd r) = [("anthropic", "sk-ant-test")].
Proof.
  cbv zeta. split; [vm_compute; reflexivity|].
  apply (wrapped_resolves_and_caches env_keys keyed_host suite_wrapper initial_prompts
           local_caller detailed_context None initial_state "sk-ant-test"
           "env: ANTHROPIC_API_KEY").
  - vm_compute. discriminate.
  - vm_compute. reflexivity.
  - vm_compute. reflexivity.
  - discriminate.
Defined.

Lemma wrapped_forwards_options_without_key_witness :
  let d := wrapper_decision keyed_host suite_wrapper detailed_context in
  let r := wrapped no_keys keyed_host suite_wrapper initial_prompts (Some local_caller)
             detailed_context None initial_state in
  target d = "cloud" /\
  fst r = Delegated (Some (or_else (model d) local_caller))
            (adaptContext initial_prompts detailed_context (target d)) None /\
  resolvedProviderKeys (snd r) = resolvedProviderKeys initial_state /\
  runtimeApiKeys (snd r) = runtimeApiKeys initial_state.
Proof.
  cbv zeta. split; [vm_compute; reflexivity|].
  apply (wrapped_forwards_options_without_key no_keys keyed_host suite_wrapper
           initial_prompts local_caller detailed_context None initial_state).
  - vm_compute. discriminate.
  - vm_compute. reflexivity.
  - intros key src H. discriminate H.
Defined.

Lemma wrapped_keeps_cached_keys_witness :
  let r := wrapped env_keys keyed_host suite_wrapper initial_prompts (Some local_caller)
             detailed_context None openai_cached_state in
  cached_key "openai" openai_cached_state = Some "sk-openai-cached" /\
  cached_key "anthropic" (snd r) = Some "sk-ant-test" /\
  cached_key "openai" (snd r) = Some "sk-openai-cached".
Proof.
  cbv zeta. split; [vm_compute; reflexivity|]. split; [vm_compute; reflexivity|].
  apply (wrapped_keeps_cached_keys env_keys keyed_host suite_wrapper initial_prompts
           (Some local_caller) detailed_context None openai_cached_state "openai"
           "sk-openai-cached").
  vm_compute. reflexivity.
Defined.

(** ** Adaptation and routing *)

(** X21.  The adaptation of a context keeps its messages, so the adapted
    context is classified and routed as the context itself: a call that
    is made again with the adapted context gets the same decision. *)
Theorem adapted_context_same_decision host prompts ctx T routerCfg models cfg agentDir :
  messages (adaptContext prompts ctx T) = messages ctx /\
  classifyComplexity (adaptContext prompts ctx T) (routing routerCfg)
  = classifyComplexity ctx (routing routerCfg) /\
  makeRoutingDecision host (adaptContext prompts ctx T) routerCfg models cfg agentDir
  = makeRoutingDecision host ctx routerCfg models cfg agentDir.
Proof.
  assert (Hm : messages (adaptContext prompts ctx T) = messages ctx).
  { unfold adaptContext. now split_ifs. }
  assert (Hc : forall r, classifyComplexity (adaptContext prompts ctx T) r
                         = classifyComplexity ctx r).
  { intros r. unfold classifyComplexity, context_messages. now rewrite Hm. }
  repeat split; [exact Hm | apply Hc |].
  unfold makeRoutingDecision. now rewrite Hc.
Qed.

(** ** The creation of a wrapper *)

Section CreatedWrapper.

Variable RegExp_new : string -> option RegExp.
Variable resolveModel : string -> string -> string -> OpenClawConfig -> ResolveOutcome.
Variable resolveApiKeyForProvider : string -> OpenClawConfig -> string -> KeyOutcome.

Lemma resolveModelRef_some r cfg agentDir m :
  fst (resolveModelRef resolveModel r cfg agentDir) = Some m <->
  exists ref e, r = Some ref /\
    resolveModel (ref_provider ref) (ref_id ref) agentDir cfg = Resolved (Some m) e /\
    truthy e = false.
Proof.
  unfold resolveModelRef. destruct r as [ref|]; cbn [fst].
  - destruct (resolveModel _ _ _ _) as [m' e|msg] eqn:E.
    + destruct (truthy e) eqn:Et; cbn [fst]; split.
      * discriminate.
      * intros (ref' & e' & [= <-] & H & Ht). rewrite E in H. injection H as -> ->.
        congruence.
      * intros ->. now exists ref, e.
      * intros (ref' & e' & [= <-] & H & Ht). rewrite E in H. now injection H as -> ->.
    + split; [discriminate|]. intros (ref' & e' & [= <-] & H & _). congruence.
  - split; [discriminate|]. intros (ref' & e' & H & _). discriminate.
Qed.

Lemma resolve_disabled cfg :
  match hybridRouter cfg with Some rc => raw_enabled rc | None => false end = false ->
  resolveHybridRouterConfig RegExp_new cfg = (None, []).
Proof.
  unfold resolveHybridRouterConfig. destruct (hybridRouter cfg) as [rc|]; [|reflexivity].
  now intros ->.
Qed.

(** X22.  A wrapper is created exactly when the router is configured and
    enabled and the host resolves the local model, which is
    ollama/functiongemma when the configuration names none, without an
    error. *)
Theorem wrapper_created_iff host params prompts :
  is_some (fst (fst (createHybridRouterWrapper RegExp_new resolveModel host params
                       prompts))) = true <->
  exists rc m e,
    hybridRouter (params_cfg params) = Some rc /\ raw_enabled rc = true /\
    resolveModel
      (ref_provider (or_else (raw_localModel rc) (mkModelRef "ollama" "functiongemma")))
      (ref_id (or_else (raw_localModel rc) (mkModelRef "ollama" "functiongemma")))
      (or_else (params_agentDir params) (default_agent_dir host)) (params_cfg params)
    = Resolved (Some m) e /\
    truthy e = false.
Proof.
  unfold createHybridRouterWrapper.
  destruct (hybridRouter (params_cfg params)) as [rc|] eqn:Hrc.
  - destruct (raw_enabled rc) eqn:Hen.
    + rewrite (resolve_enabled RegExp_new _ rc Hrc Hen).
      cbn [localModel localTextModel cloudModel].
      destruct (resolveModelRef resolveModel (Some _) _ _) as [mlocal w1] eqn:E1.
      destruct (resolveModelRef resolveModel (raw_localTextModel rc) _ _) as [mtext w2].
      destruct (resolveModelRef resolveModel (raw_cloudModel rc) _ _) as [mcloud w3].
      assert (H1 := resolveModelRef_some
                      (Some (or_else (raw_localModel rc) (mkModelRef "ollama" "functiongemma")))
                      (params_cfg params)
                      (or_else (params_agentDir params) (default_agent_dir host))).
      rewrite E1 in H1. cbn [fst] in H1.
      destruct mlocal as [m|]; cbn [fst is_some]; split.
      * intros _. destruct (proj1 (H1 m) eq_refl) as (ref & e & [= <-] & Hr & He).
        now exists rc, m, e.
      * reflexivity.
      * discriminate.
      * intros (rc' & m & e & [= <-] & _ & Hr & He).
        assert (None = Some m) by (apply H1; eauto). discriminate.
    + rewrite resolve_disabled by now rewrite Hrc.
      cbn [fst is_some]. split; [discriminate|].
      intros (rc' & m & e & [= <-] & Hen' & _). congruence.
  - rewrite resolve_disabled by now rewrite Hrc.
    cbn [fst is_some]. split; [discriminate|].
    intros (rc' & m & e & H & _). discriminate.
Qed.

(** X23.  A created wrapper holds the resolved configuration, a local
    model, the caller's parameters and the agent directory of the
    parameters or else the host's; the module's prompts are then the
    identity preamble followed by the base prompts. *)
Theorem created_wrapper_fields host params prompts wr prompts' lines :
  createHybridRouterWrapper RegExp_new resolveModel host params prompts
  = (Some wr, prompts', lines) ->
  fst (resolveHybridRouterConfig RegExp_new (params_cfg params))
  = Some (wrapper_routerCfg wr) /\
  enabled (wrapper_routerCfg wr) = true /\
  is_some (local (wrapper_models wr)) = true /\
  wrapper_params wr = params /\
  wrapper_agentDir wr = or_else (params_agentDir params) (default_agent_dir host) /\
  prompts' =
    mkPrompts
      (buildIdentityPreamble host (workspace (params_cfg params)) ++ str " "
       ++ BASE_TOOL_PROMPT)
      (buildIdentityPreamble host (workspace (params_cfg params)) ++ str " "
       ++ BASE_TEXT_PROMPT).
Proof.
  unfold createHybridRouterWrapper.
  destruct (hybridRouter (params_cfg params)) as [rc|] eqn:Hrc;
    [destruct (raw_enabled rc) eqn:Hen|];
    try (rewrite resolve_disabled by now rewrite Hrc); try discriminate.
  rewrite (resolve_enabled RegExp_new _ rc Hrc Hen).
  cbn [localModel localTextModel cloudModel fst].
  destruct (resolveModelRef resolveModel (Some _) _ _) as [mlocal w1].
  destruct (resolveModelRef resolveModel (raw_localTextModel rc) _ _) as [mtext w2].
  destruct (resolveModelRef resolveModel (raw_cloudModel rc) _ _) as [mcloud w3].
  destruct mlocal as [m|]; [|discriminate].
  intros [= <- <- _]. cbn. auto 10.
Qed.

(** X24.  A call through a created wrapper with a model from the caller
    is always delegated, and never with the caller's model: the model of
    the call is the model of the decision, one of the models resolved at
    creation. *)
Theorem created_wrapper_overrides_model host params prompts wr prompts' lines
    prompts2 m ctx options st :
  createHybridRouterWrapper RegExp_new resolveModel host params prompts
  = (Some wr, prompts', lines) ->
  exists em eo,
    fst (wrapped resolveApiKeyForProvider host wr prompts2 (Some m) ctx options st)
    = Delegated (Some em) (adaptContext prompts2 ctx (target (wrapper_decision host wr ctx)))
        eo /\
    model (wrapper_decision host wr ctx) = Some em /\
    In (Some em) [local (wrapper_models wr); localText (wrapper_models wr);
                  cloud (wrapper_models wr)].
Proof.
  intros Hc.
  assert (Hlocal : is_some (local (wrapper_models wr)) = true).
  { revert Hc. unfold createHybridRouterWrapper.
    destruct (resolveHybridRouterConfig _ _) as [[rcfg|] ws]; [|discriminate].
    destruct (resolveModelRef resolveModel (Some _) _ _) as [mlocal w1].
    destruct (resolveModelRef resolveModel (localTextModel rcfg) _ _) as [mtext w2].
    destruct (resolveModelRef resolveModel (cloudModel rcfg) _ _) as [mcloud w3].
    destruct mlocal as [ml|]; [|discriminate]. now intros [= <- _ _]. }
  unfold wrapped. fold (wrapper_decision host wr ctx).
  assert (Hd : exists em, model (wrapper_decision host wr ctx) = Some em /\
                 In (Some em) [local (wrapper_models wr); localText (wrapper_models wr);
                               cloud (wrapper_models wr)]).
  { unfold wrapper_decision.
    destruct (decision_model_cases host ctx (wrapper_routerCfg wr) (wrapper_models wr)
                (params_cfg (wrapper_params wr)) (Some (wrapper_agentDir wr)))
      as [->|[->|[-> Hcl]]].
    - destruct (local (wrapper_models wr)) as [x|]; [|discriminate].
      exists x. split; [reflexivity|]. now left.
    - destruct (localText (wrapper_models wr)) as [x|]; cbn [nullish].
      + exists x. split; [reflexivity|]. right. now left.
      + destruct (local (wrapper_models wr)) as [x|]; [|discriminate].
        exists x. split; [reflexivity|]. now left.
    - destruct (cloud (wrapper_models wr)) as [x|]; [|discriminate].
      exists x. split; [reflexivity|]. right. right. now left. }
  destruct Hd as (em & Hem & Hin). rewrite Hem. cbn [nullish].
  destruct (negb _); [destruct (resolve_key _ _ _ _) as [[key|] st']|];
    cbn [fst]; eauto.
Qed.

(** X25.  Without an enabled router in the configuration no wrapper is
    created, the module's prompts stay as they are and nothing is
    logged. *)
Theorem disabled_router_changes_nothing host params prompts :
  match hybridRouter (params_cfg params) with
  | Some rc => raw_enabled rc
  | None => false
  end = false ->
  createHybridRouterWrapper RegExp_new resolveModel host params prompts
  = (None, prompts, []).
Proof.
  intros H. unfold createHybridRouterWrapper. now rewrite resolve_disabled.
Qed.

(** X26.  When the router is enabled and the local model cannot be
    resolved, no wrapper is created, yet the module's prompts have been
    replaced by the identity prompts and the last line of the log is the
    warning that the router is disabled. *)
Theorem unresolved_local_model_disables_router host params prompts rc :
  let created := createHybridRouterWrapper RegExp_new resolveModel host params prompts in
  let preamble := buildIdentityPreamble host (workspace (params_cfg params)) in
  hybridRouter (params_cfg params) = Some rc -> raw_enabled rc = true ->
  fst (resolveModelRef resolveModel
         (Some (or_else (raw_localModel rc) (mkModelRef "ollama" "functiongemma")))
         (params_cfg params)
         (or_else (params_agentDir params) (default_agent_dir host))) = None ->
  fst (fst created) = None /\
  snd (fst created) = mkPrompts (preamble ++ str " " ++ BASE_TOOL_PROMPT)
                                (preamble ++ str " " ++ BASE_TEXT_PROMPT) /\
  exists lines,
    snd created = lines ++ [Warn "local model could not be resolved — router disabled"].
Proof.
  cbv zeta. intros Hrc Hen Hnone. unfold createHybridRouterWrapper.
  rewrite (resolve_enabled RegExp_new _ rc Hrc Hen).
  cbn [localModel localTextModel cloudModel].
  destruct (resolveModelRef resolveModel (Some _) _ _) as [mlocal w1].
  destruct (resolveModelRef resolveModel (raw_localTextModel rc) _ _) as [mtext w2].
  destruct (resolveModelRef resolveModel (raw_cloudModel rc) _ _) as [mcloud w3].
  cbn [fst] in Hnone. subst mlocal. cbn [fst snd]. eauto.
Qed.

End CreatedWrapper.

Lemma created_wrapper_fields_witness :
  let created :=
    createHybridRouterWrapper sample_RegExp_new sample_resolveModel keyed_host
      readme_params initial_prompts in
  exists wr,
    fst (fst created) = Some wr /\
    is_some (local (wrapper_models wr)) = true /\
    wrapper_params wr = readme_params /\
    wrapper_agentDir wr = "/home/user/.openclaw-local/agent".
Proof.
  cbv zeta.
  assert (Hsome : is_some (fst (fst (createHybridRouterWrapper sample_RegExp_new
                                       sample_resolveModel keyed_host readme_params
                                       initial_prompts))) = true)
    by (vm_compute; reflexivity).
  destruct (createHybridRouterWrapper sample_RegExp_new sample_resolveModel keyed_host
              readme_params initial_prompts) as [[[wr|] prompts'] lines] eqn:E.
  - destruct (created_wrapper_fields sample_RegExp_new sample_resolveModel keyed_host
                readme_params initial_prompts wr prompts' lines E)
      as (_ & _ & Hlocal & Hparams & Hdir & _).
    exists wr. repeat split; assumption.
  - discriminate Hsome.
Defined.

Lemma created_wrapper_overrides_model_witness :
  let created :=
    createHybridRouterWrapper sample_RegExp_new sample_resolveModel keyed_host
      readme_params initial_prompts in
  let m := mkModel "openai" "gpt-4o" in
  exists wr em eo,
    fst (fst created) = Some wr /\
    fst (wrapped env_keys keyed_host wr (snd (fst created)) (Some m) detailed_context None
           initial_state)
    = Delegated (Some em)
        (adaptContext (snd (fst created)) detailed_context
           (target (wrapper_decision keyed_host wr detailed_context))) eo /\
    model (wrapper_decision keyed_host wr detailed_context) = Some em /\
    In (Some em) [local (wrapper_models wr); localText (wrapper_models wr);
                  cloud (wrapper_models wr)].
Proof.
  cbv zeta.
  assert (Hsome : is_some (fst (fst (createHybridRouterWrapper sample_RegExp_new
                                       sample_resolveModel keyed_host readme_params
                                       initial_prompts))) = true)
    by (vm_compute; reflexivity).
  destruct (createHybridRouterWrapper sample_RegExp_new sample_resolveModel keyed_host
              readme_params initial_prompts) as [[[wr|] prompts'] lines] eqn:E.
  - destruct (created_wrapper_overrides_model sample_RegExp_new sample_resolveModel
                env_keys keyed_host readme_params initial_prompts wr prompts' lines
                prompts' (mkModel "openai" "gpt-4o") detailed_context None initial_state E)
      as (em & eo & H).
    exists wr, em, eo. split; [reflexivity | exact H].
  - discriminate Hsome.
Defined.

Lemma disabled_router_changes_nothing_witness :
  createHybridRouterWrapper sample_RegExp_new sample_resolveModel keyed_host
    (mkParams empty_config None false) initial_prompts
  = (None, initial_prompts, []).
Proof.
  apply (disabled_router_changes_nothing sample_RegExp_new sample_resolveModel keyed_host
           (mkParams empty_config None false) initial_prompts).
  reflexivity.
Defined.

Lemma unresolved_local_model_disables_router_witness :
  let created :=
    createHybridRouterWrapper sample_RegExp_new sample_resolveModel keyed_host
      (mkParams unknown_local_config None false) initial_prompts in
  fst (fst created) = None /\
  snd (fst created)
  = mkPrompts (str "You are a helpful assistant." ++ str " " ++ BASE_TOOL_PROMPT)
              (str "You are a helpful assistant." ++ str " " ++ BASE_TEXT_PROMPT) /\
  exists lines,
    snd created = lines ++ [Warn "local model could not be resolved — router disabled"].
Proof.
  cbv zeta.
  apply (unresolved_local_model_disables_router sample_RegExp_new sample_resolveModel
           keyed_host (mkParams unknown_local_config None false) initial_prompts
           (mkRawHybridRouter true None (Some (mkModelRef "lmstudio" "phi-3")) None None
              None None)); reflexivity.
Defined.

(** ** The identity preamble of a named agent *)

Lemma preamble_with_name host dir content n :
  dir <> "" ->
  read_file host dir "IDENTITY.md" = Some content ->
  option_map trim (match_label "Name" content) = Some n -> n <> [] ->
  exists opening middle,
    buildIdentityPreamble host (Some dir)
    = join (str " ") ([str "You are " ++ n ++ opening] ++ middle
                      ++ [NEVER_SAY_OPENING ++ n ++ str "."]) /\
    (opening = HELPFUL_AI_ASSISTANT \/
     exists f, option_map trim (match_label "Full Name" content) = Some f /\
               opening = str " (" ++ f ++ str ")" ++ HELPFUL_AI_ASSISTANT).
Proof.
  intros Hdir Hread Hname Hn. unfold buildIdentityPreamble.
  destruct (String.eqb_spec dir ""); [contradiction|].
  rewrite Hread, Hname.
  destruct n as [|c n]; [contradiction|]. cbn [nonempty].
  change (str "Never say you are Gemma, LLaMA, or any other model. You are only ")
    with NEVER_SAY_OPENING.
  destruct (option_map trim (match_label "Full Name" content)) as [[|c' f]|] eqn:Ef;
    cbn [nonempty].
  - exists HELPFUL_AI_ASSISTANT.
    match goal with
    | |- context [[?a] ++ ?u ++ ?v ++ ?s ++ [?z]] => exists (u ++ v ++ s)
    end.
    split; [now rewrite <- !app_assoc | now left].
  - exists (str " (" ++ (c' :: f) ++ str ")" ++ HELPFUL_AI_ASSISTANT).
    match goal with
    | |- context [[?a] ++ ?u ++ ?v ++ ?s ++ [?z]] => exists (u ++ v ++ s)
    end.
    split; [now rewrite <- !app_assoc | right; now exists (c' :: f)].
  - exists HELPFUL_AI_ASSISTANT.
    match goal with
    | |- context [[?a] ++ ?u ++ ?v ++ ?s ++ [?z]] => exists (u ++ v ++ s)
    end.
    split; [now rewrite <- !app_assoc | now left].
Qed.

Lemma join_cons_app sep a l z :
  exists rest, join sep ([a] ++ l ++ [z]) = a ++ rest ++ z.
Proof.
  cbn [app]. revert a. induction l as [|x l IH]; intros a.
  - exists sep. reflexivity.
  - destruct (IH x) as [rest E]. exists (sep ++ x ++ rest).
    change (join sep (a :: (x :: l) ++ [z])) with (a ++ sep ++ join sep (x :: l ++ [z])).
    rewrite E. now rewrite <- !app_assoc.
Qed.

(** X27.  When IDENTITY.md gives the agent a name, the preamble opens
    with "You are" and the name, and closes with the sentence that allows
    only that name. *)
Theorem named_preamble host dir content n :
  dir <> "" ->
  read_file host dir "IDENTITY.md" = Some content ->
  option_map trim (match_label "Name" content) = Some n -> n <> [] ->
  exists middle,
    buildIdentityPreamble host (Some dir)
    = str "You are " ++ n ++ middle ++ NEVER_SAY_OPENING ++ n ++ str ".".
Proof.
  intros Hdir Hread Hname Hn.
  destruct (preamble_with_name host dir content n Hdir Hread Hname Hn)
    as (opening & middle & -> & _).
  destruct (join_cons_app (str " ") (str "You are " ++ n ++ opening) middle
              (NEVER_SAY_OPENING ++ n ++ str ".")) as [rest E].
  exists (opening ++ rest). etransitivity; [exact E|]. now rewrite <- !app_assoc.
Qed.

Lemma named_preamble_witness :
  option_map trim
    (match_label "Name" (or_else (read_file named_host "/ws" "IDENTITY.md") []))
  = Some (str "jarvis") /\
  exists middle,
    buildIdentityPreamble named_host (Some "/ws")
    = str "You are " ++ str "jarvis" ++ middle ++ NEVER_SAY_OPENING ++ str "jarvis"
      ++ str ".".
Proof.
  split; [vm_compute; reflexivity|].
  apply (named_preamble named_host "/ws"
           (or_else (read_file named_host "/ws" "IDENTITY.md") []) (str "jarvis")).
  - discriminate.
  - reflexivity.
  - vm_compute. reflexivity.
  - discriminate.
Defined.

(** X28.  At most four directives of SOUL.md enter the preamble, and each
    is shorter than 80 code units. *)
Theorem soul_directives_bounded soul :
  List.length (soul_directives soul) <= 4 /\
  List.Forall (fun d => List.length d < 80) (soul_directives soul).
Proof.
  unfold soul_directives. split.
  - apply List.firstn_le_length.
  - apply List.Forall_forall. intros d Hd.
    match type of Hd with
    | In _ (firstn 4 ?l) =>
        assert (Hin : In d l)
          by (rewrite <- (firstn_skipn 4 l); apply in_or_app; now left)
    end.
    apply List.filter_In in Hin as [_ Hlt]. now apply Nat.ltb_lt in Hlt.
Qed.

(** ** The wizard's IDENTITY.md read back *)

Lemma trim_start_head s c s' : trim_start s = c :: s' -> CodeUnit.is_space c = false.
Proof.
  induction s as [|d s IH]; cbn [trim_start]; [discriminate|].
  destruct (CodeUnit.is_space d) eqn:Ed; [exact IH|].
  now intros [= <- _].
Qed.

Lemma trim_start_fixed c s : CodeUnit.is_space c = false -> trim_start (c :: s) = c :: s.
Proof. intros H. cbn [trim_start]. now rewrite H. Qed.

Lemma trim_start_suffix s : exists pre, s = pre ++ trim_start s.
Proof.
  induction s as [|d s [pre IH]]; [now exists []|]. cbn [trim_start].
  destruct (CodeUnit.is_space d); [|now exists []].
  exists (d :: pre). cbn [app]. now f_equal.
Qed.

(** The ends of a trimmed string are not white space, so trimming it
    again changes nothing. *)
Lemma trim_ends s c s' :
  trim s = c :: s' -> CodeUnit.is_space c = false /\ trim (trim s) = trim s.
Proof.
  unfold trim at 1 3 4. set (t := trim_start s). set (u := trim_start (rev t)).
  intros E.
  assert (Hu : u <> []) by (intros Hu; rewrite Hu in E; discriminate).
  (* the head of [u] is not white space *)
  assert (Hhead : exists d u', u = d :: u' /\ CodeUnit.is_space d = false).
  { destruct u as [|d u'] eqn:Eu; [contradiction|].
    exists d, u'. split; [reflexivity|]. now apply (trim_start_head (rev t) d u'). }
  (* the last of [u] is the head of [t], which is not white space *)
  assert (Hc : CodeUnit.is_space c = false).
  { destruct (trim_start_suffix (rev t)) as [pre Hpre]. fold u in Hpre.
    assert (Et : t = rev u ++ rev pre).
    { rewrite <- (rev_involutive t), Hpre. now rewrite rev_app_distr. }
    rewrite E in Et. cbn [app] in Et.
    now apply (trim_start_head s c (s' ++ rev pre)). }
  split; [exact Hc|].
  unfold trim. rewrite E, (trim_start_fixed c s' Hc), <- E, rev_involutive.
  destruct Hhead as (d & u' & -> & Hd). now rewrite (trim_start_fixed d u' Hd).
Qed.

Lemma last_or_cons c u p : last_or (c :: u) p = last_or u (Some c).
Proof.
  unfold last_or. destruct u as [|d u]; [reflexivity|].
  rewrite last_cons_cons. destruct (last (d :: u)) eqn:E; [reflexivity|].
  now apply last_None in E.
Qed.

(** A literal at the front of the input is matched, case-sensitively. *)
Lemma rmatch_literal {A : Type} (w s : text) p (k : option N -> text -> option A) :
  rmatch false (fold_right (fun c r => Cat (Lit c) r) Eps w) p (w ++ s) k
  = k (last_or w p) s.
Proof.
  revert p. induction w as [|c w IH]; intros p; [reflexivity|].
  cbn [fold_right app rmatch step_ok canon]. rewrite N.eqb_refl, IH.
  now rewrite last_or_cons.
Qed.

(** A star over a one-unit pattern takes every unit that the pattern
    accepts, when the continuation accepts what is left. *)
Lemma rmatch_star_units {A : Type} r :
  (forall p s (k : option N -> text -> option A),
     rmatch false r p s k =
     match s with
     | c :: s' => if step_ok false r c then k (Some c) s' else None
     | [] => None
     end) ->
  forall u rest p (k : option N -> text -> option A) a,
    forallb (step_ok false r) u = true ->
    match rest with c :: _ => step_ok false r c = false | [] => True end ->
    k (last_or u p) rest = Some a ->
    rmatch false (Star r) p (u ++ rest) k = Some a.
Proof.
  intros Hunit u rest p k a Hu Hrest Hk. cbn [rmatch].
  assert (Hn : List.length (u ++ rest) <= List.length (u ++ rest)) by lia.
  revert Hn. generalize (List.length (u ++ rest)) at 2 3. intros n.
  revert p n Hk. induction u as [|c u IH]; intros p n Hk Hn.
  - cbn [app] in *. unfold last_or in Hk. cbn [last] in Hk.
    destruct n as [|n]; [exact Hk|].
    rewrite Hunit. destruct rest as [|c rest]; [exact Hk|]. now rewrite Hrest.
  - cbn [forallb] in Hu. apply andb_true_iff in Hu as [Hc Hu].
    cbn [app List.length] in Hn. destruct n as [|n]; [lia|].
    rewrite Hunit. cbn [app]. rewrite Hc.
    assert (Hlt : Nat.ltb (List.length (u ++ rest)) (List.length (c :: u ++ rest)) = true)
      by (apply Nat.ltb_lt; cbn [List.length]; lia).
    rewrite Hlt. rewrite (IH Hu (Some c) n); [reflexivity| |lia].
    now rewrite <- (last_or_cons c u p).
Qed.

Lemma rmatch_cat {A : Type} ci r1 r2 p s (k : option N -> text -> option A) :
  rmatch ci (Cat r1 r2) p s k = rmatch ci r1 p s (fun p' s' => rmatch ci r2 p' s' k).
Proof. reflexivity. Qed.

Lemma rmatch_literal_skip {A : Type} w0 w' r2 d s prev (k : option N -> text -> option A) :
  N.eqb d w0 = false ->
  rmatch false (Cat (fold_right (fun c r => Cat (Lit c) r) Eps (w0 :: w')) r2) prev
    (d :: s) k = None.
Proof. intros H. cbn [rmatch fold_right step_ok canon]. now rewrite H. Qed.

(** The leftmost label, one space and a value on the rest of the line:
    group 1 is the value. *)
Lemma search_label_line w0 w' pre c v rest :
  forallb (fun d => negb (N.eqb d w0)) pre = true ->
  CodeUnit.is_space c = false ->
  forallb (step_ok false AnyChar) (c :: v) = true ->
  match rest with d :: _ => step_ok false AnyChar d = false | [] => True end ->
  forall prev,
    search false (Cat (fold_right (fun c r => Cat (Lit c) r) Eps (w0 :: w')) (Star Space))
      prev (pre ++ (w0 :: w') ++ [32%N] ++ (c :: v) ++ rest)
      (fun p s1 =>
         rmatch false (Plus AnyChar) p s1
           (fun _ s2 => Some (firstn (List.length s1 - List.length s2) s1)))
    = Some (c :: v).
Proof.
  intros Hpre Hc Hv Hrest.
  assert (Hvalue : forall p,
            rmatch false (Plus AnyChar) p ((c :: v) ++ rest)
              (fun _ s2 => Some (firstn (List.length ((c :: v) ++ rest) - List.length s2)
                                         ((c :: v) ++ rest)))
            = Some (c :: v)).
  { intros p. unfold Plus. rewrite rmatch_cat.
    change (rmatch false AnyChar p ((c :: v) ++ rest) ?k)
      with (if step_ok false AnyChar c then k (Some c) (v ++ rest) else None).
    cbn [forallb] in Hv.
    apply andb_true_iff in Hv as [Hc' Hv]. rewrite Hc'.
    apply rmatch_star_units; [reflexivity | exact Hv | exact Hrest |].
    f_equal. cbn [app].
    replace (List.length (c :: v ++ rest) - List.length rest)
      with (List.length (c :: v) + 0) by (cbn [List.length]; rewrite List.length_app; lia).
    change (c :: v ++ rest) with ((c :: v) ++ rest).
    rewrite firstn_app_2. cbn [firstn]. apply app_nil_r. }
  induction pre as [|d pre IH]; intros prev.
  - cbn [app search]. rewrite rmatch_cat.
    change (w0 :: w' ++ 32%N :: c :: v ++ rest)
      with ((w0 :: w') ++ [32%N] ++ (c :: v) ++ rest).
    rewrite (rmatch_literal (w0 :: w')).
    rewrite (rmatch_star_units Space (fun _ _ _ => eq_refl) [32%N] ((c :: v) ++ rest)
               _ _ (c :: v)); [reflexivity | reflexivity | exact Hc |].
    apply Hvalue.
  - cbn [forallb] in Hpre. apply andb_true_iff in Hpre as [Hd Hpre].
    apply negb_true_iff in Hd.
    cbn [app search]. rewrite (rmatch_literal_skip w0 w' _ d _ prev _ Hd).
    now apply IH.
Qed.

Lemma match_label_Name pre c v rest :
  forallb (fun d => negb (N.eqb d 42)) pre = true ->
  CodeUnit.is_space c = false ->
  forallb (fun d => negb (CodeUnit.is_line_terminator d)) (c :: v) = true ->
  match rest with d :: _ => CodeUnit.is_line_terminator d = true | [] => True end ->
  match_label "Name" (pre ++ str "**Name:** " ++ (c :: v) ++ rest) = Some (c :: v).
Proof.
  intros Hpre Hc Hv Hrest. unfold match_label.
  apply (search_label_line 42%N (str "*Name:**") pre c v rest Hpre Hc Hv).
  destruct rest as [|d rest]; [exact I|]. cbn [step_ok]. now rewrite Hrest.
Qed.

Lemma fresh_identity_shape agentName fullName vibe emoji born :
  exists rest,
    fresh_identity agentName fullName vibe emoji born
    = str "# IDENTITY.md - Who Am I?

- " ++ str "**Name:** " ++ agentName ++ 10%N :: rest.
Proof.
  unfold fresh_identity. destruct fullName as [|f fullName]; eexists; reflexivity.
Qed.

Lemma fresh_identity_Name raw fullName vibe emoji born :
  trim raw <> [] ->
  forallb (fun c => negb (CodeUnit.is_line_terminator c)) (trim raw) = true ->
  option_map trim (match_label "Name" (fresh_identity (trim raw) fullName vibe emoji born))
  = Some (trim raw).
Proof.
  intros Hne Hline.
  destruct (fresh_identity_shape (trim raw) fullName vibe emoji born) as [rest ->].
  destruct (trim raw) as [|c v] eqn:E; [contradiction|].
  destruct (trim_ends raw c v E) as [Hc Htrim].
  rewrite match_label_Name; [| reflexivity | exact Hc | exact Hline | reflexivity].
  cbn [option_map]. rewrite <- E. now rewrite Htrim.
Qed.

(** X29.  The wizard reads back the name it wrote: in the IDENTITY.md
    written from scratch for a name of one line, the field Name is that
    name, unless the name opens like a placeholder. *)
Theorem wizard_reads_back_name raw fullName vibe emoji born :
  let agentName := trim raw in
  agentName <> [] ->
  forallb (fun c => negb (CodeUnit.is_line_terminator c)) agentName = true ->
  readField (fresh_identity agentName fullName vibe emoji born) "Name"
  = (if starts_with (str "*(") agentName then None else Some agentName).
Proof.
  cbv zeta. intros Hne Hline.
  assert (H := fresh_identity_Name raw fullName vibe emoji born Hne Hline).
  unfold readField.
  destruct (match_label "Name" _) as [group|]; [|discriminate].
  cbn [option_map] in H. injection H as ->.
  destruct (trim raw) as [|c v]; [contradiction|].
  cbn [List.length Nat.eqb]. now rewrite orb_false_r.
Qed.

Lemma wizard_reads_back_name_witness :
  let agentName := trim (str " jarvis ") in
  agentName = str "jarvis" /\
  readField (fresh_identity agentName (str "Just A Rather Very Intelligent System") [] []
               (str "November 1, 2026")) "Name"
  = (if starts_with (str "*(") agentName then None else Some agentName).
Proof.
  cbv zeta. split; [vm_compute; reflexivity|].
  apply (wizard_reads_back_name (str " jarvis ")
           (str "Just A Rather Very Intelligent System") [] [] (str "November 1, 2026")).
  - vm_compute. discriminate.
  - vm_compute. reflexivity.
Defined.

(** X30.  The router reads the name that the wizard wrote: with the
    wizard's IDENTITY.md in the workspace, the preamble opens with
    "You are" and the agent's name and closes with the sentence that
    allows only that name. *)
Theorem wizard_name_in_preamble host dir raw fullName vibe emoji born :
  let agentName := trim raw in
  agentName <> [] ->
  forallb (fun c => negb (CodeUnit.is_line_terminator c)) agentName = true ->
  dir <> "" ->
  read_file host dir "IDENTITY.md"
  = Some (fresh_identity agentName fullName vibe emoji born) ->
  exists middle,
    buildIdentityPreamble host (Some dir)
    = str "You are " ++ agentName ++ middle ++ NEVER_SAY_OPENING ++ agentName ++ str ".".
Proof.
  cbv zeta. intros Hne Hline Hdir Hread.
  destruct (preamble_with_name host dir _ (trim raw) Hdir Hread
              (fresh_identity_Name raw fullName vibe emoji born Hne Hline) Hne)
    as (opening & middle & E & _).
  destruct (join_cons_app (str " ") (str "You are " ++ trim raw ++ opening) middle
              (NEVER_SAY_OPENING ++ trim raw ++ str ".")) as [rest E'].
  exists (opening ++ rest). rewrite E. etransitivity; [exact E'|].
  now rewrite <- !app_assoc.
Qed.

Lemma wizard_name_in_preamble_witness :
  let agentName := trim (str " jarvis ") in
  let host := wizard_host agentName [] (str "Dry wit") [] (str "November 1, 2026") in
  agentName = str "jarvis" /\
  exists middle,
    buildIdentityPreamble host (Some "/ws")
    = str "You are " ++ agentName ++ middle ++ NEVER_SAY_OPENING ++ agentName ++ str ".".
Proof.
  cbv zeta. split; [vm_compute; reflexivity|].
  apply (wizard_name_in_preamble
           (wizard_host (trim (str " jarvis ")) [] (str "Dry wit") []
              (str "November 1, 2026"))
           "/ws" (str " jarvis ") [] (str "Dry wit") [] (str "November 1, 2026")).
  - vm_compute. discriminate.
  - vm_compute. reflexivity.
  - discriminate.
  - reflexivity.
Defined.
